(** * pyautoaidev (v42-rel1.py): history pruner, code extractor,
      completion client and iteration controller

    A shallow embedding of [src/v42-rel1.py].  Python [str] values are
    modelled as [string]; one [ascii] stands for one code point in the
    range 0..255, so the character predicates below are the restrictions
    of Python's to that range.  Python [int]s that the code only counts
    upwards from 0 are [nat]; the round budget of [prune_history], which a
    caller may choose freely, is a [Z]. *)

From Stdlib Require Import List String Ascii ZArith Bool Arith Lia.
From Stdlib Require Import DecimalString DecimalNat.
Import ListNotations.

Set Warnings "-register-all".

Open Scope string_scope.
Open Scope list_scope.
Open Scope nat_scope.

Infix "+++" := String.append (right associativity, at level 60).

(* ------------------------------------------------------------------ *)
(** ** Python string primitives *)

Module PyStr.

(** [str.isspace()] on one character; also the class [\s] of [re] for
    [str] patterns and the default character set of [str.strip()]. *)
Definition isspace (c : ascii) : bool :=
  let n := nat_of_ascii c in
  ((9 <=? n) && (n <=? 13)) || ((28 <=? n) && (n <=? 32))
  || (n =? 133) || (n =? 160).

(** [str.lower()] on one character. *)
Definition lower_char (c : ascii) : ascii :=
  let n := nat_of_ascii c in
  if ((65 <=? n) && (n <=? 90))
     || ((192 <=? n) && (n <=? 222) && negb (n =? 215))
  then ascii_of_nat (n + 32) else c.

Fixpoint lower (s : string) : string :=
  match s with
  | EmptyString => EmptyString
  | String c s' => String (lower_char c) (lower s')
  end.

(** [needle in hay] for two strings. *)
Fixpoint contains (needle hay : string) : bool :=
  String.prefix needle hay
  || match hay with
     | EmptyString => false
     | String _ hay' => contains needle hay'
     end.

(** [s.lstrip()], [s.rstrip()], [s.strip()] with no argument. *)
Fixpoint lstrip (s : string) : string :=
  match s with
  | EmptyString => EmptyString
  | String c s' => if isspace c then lstrip s' else s
  end.

Fixpoint rstrip (s : string) : string :=
  match s with
  | EmptyString => EmptyString
  | String c s' =>
      match rstrip s' with
      | EmptyString => if isspace c then EmptyString else String c EmptyString
      | t => String c t
      end
  end.

Definition strip (s : string) : string := rstrip (lstrip s).

(** Truth value of a string in a condition: non-empty. *)
Definition truthy (s : string) : bool := negb (s =? "")%string.

(** The condition [not s.strip()]: empty or white space only. *)
Definition blank (s : string) : bool := negb (truthy (strip s)).

(** [s[:n]] for a string. *)
Fixpoint take (n : nat) (s : string) : string :=
  match n, s with
  | O, _ => EmptyString
  | S n', String c s' => String c (take n' s')
  | S _, EmptyString => EmptyString
  end.

Definition nl : string := String (ascii_of_nat 10) EmptyString.

(** [str(n)] for a non-negative integer, and for any integer. *)
Definition str_of_nat (n : nat) : string :=
  NilZero.string_of_uint (Nat.to_uint n).

Definition str_of_Z (z : Z) : string :=
  NilZero.string_of_int (Z.to_int z).

End PyStr.

(* ------------------------------------------------------------------ *)
(** ** Messages and transcripts *)

(** A message is the dict [{"role": ..., "content": ...}]. *)
Record Message : Type := mkMessage { role : string; content : string }.

Definition Transcript : Type := list Message.

(* ------------------------------------------------------------------ *)
(** ** History pruner: [prune_history] *)

Module Pruner.

Definition FEEDBACK_TAG : string := "User Feedback:".
Definition GENERATION_TAG : string := "We are in the Code Generation Step.".
Definition JUDGMENT_TAG : string := "We are in the Code Judgment Step.".

(** [msg["role"] == "user" and "User Feedback:" in msg["content"]] *)
Definition is_feedback (msg : Message) : bool :=
  (role msg =? "user")%string && PyStr.contains FEEDBACK_TAG (content msg).

Definition is_assistant (msg : Message) : bool := (role msg =? "assistant")%string.

(** The condition of the innermost [if] of the loop. *)
Definition is_step (msg : Message) : bool :=
  PyStr.contains GENERATION_TAG (content msg)
  || PyStr.contains JUDGMENT_TAG (content msg).

(** One pass through the body of [for msg in reversed(remainder)]; the
    loop state is [(kept_reversed, code_round_count)]. *)
Definition loop_body (max_code_rounds : Z)
    (st : list Message * Z) (msg : Message) : list Message * Z :=
  let '(kept_reversed, code_round_count) := st in
  if is_feedback msg then (kept_reversed ++ [msg], code_round_count)
  else if (code_round_count <? max_code_rounds)%Z then
    if is_assistant msg then (kept_reversed ++ [msg], code_round_count)
    else if is_step msg then (kept_reversed ++ [msg], (code_round_count + 1)%Z)
    else (kept_reversed, code_round_count)
  else (kept_reversed, code_round_count).

Definition prune_history (conversation_history : Transcript)
    (max_code_rounds : Z) : Transcript :=
  if List.length conversation_history <=? 2 then conversation_history
  else
    let pinned := firstn 2 conversation_history in
    let remainder := skipn 2 conversation_history in
    let '(kept_reversed, _) :=
      fold_left (loop_body max_code_rounds) (rev remainder) ([], 0%Z) in
    pinned ++ rev kept_reversed.

(** The messages the loop appends, as a function of the scan order
    (newest first) and of the counter on entry. *)
Fixpoint scan (n : Z) (l : list Message) (c : Z) : list Message :=
  match l with
  | [] => []
  | m :: l' =>
      if is_feedback m then m :: scan n l' c
      else if (c <? n)%Z then
        if is_assistant m then m :: scan n l' c
        else if is_step m then m :: scan n l' (c + 1)%Z
        else scan n l' c
      else scan n l' c
  end.

(** A message the loop counts against the budget. *)
Definition is_round (m : Message) : bool :=
  negb (is_feedback m) && negb (is_assistant m) && is_step m.

(** A message the loop keeps while the budget is not exhausted. *)
Definition in_window (m : Message) : bool :=
  is_feedback m || is_assistant m || is_step m.

Definition count_rounds (l : list Message) : Z :=
  Z.of_nat (List.length (filter is_round l)).

(** The counter when the loop has gone through [l]. *)
Fixpoint scan_count (n : Z) (l : list Message) (c : Z) : Z :=
  match l with
  | [] => c
  | m :: l' =>
      if is_feedback m then scan_count n l' c
      else if (c <? n)%Z then
        if is_assistant m then scan_count n l' c
        else if is_step m then scan_count n l' (c + 1)%Z
        else scan_count n l' c
      else scan_count n l' c
  end.

(** A generation/judgment exchange pair as the specification words it:
    a user message tagged with one of the two step markers, directly
    followed by an assistant message. *)
Definition is_step_user (m : Message) : bool :=
  (role m =? "user")%string && is_step m.

Fixpoint count_pairs (l : list Message) : nat :=
  match l with
  | [] => 0
  | u :: rest =>
      match rest with
      | a :: _ =>
          (if is_step_user u && is_assistant a then 1 else 0)
          + count_pairs rest
      | [] => 0
      end
  end.

End Pruner.

(* ------------------------------------------------------------------ *)
(** ** Code extractor: [extract_code_blocks] *)

Module Extractor.

(** The fragment of [re] patterns the extractor's pattern is written in.
    Character classes are predicates; [Star] is the greedy [c*],
    [LazyStar] the non-greedy [c*?], [Opt] the greedy [(?:r)?] and
    [Group] the capturing group (the pattern has one). *)
Inductive regex : Type :=
| Lit (s : string)
| Opt (r : regex)
| Star (c : ascii -> bool)
| LazyStar (c : ascii -> bool)
| Group (r : regex)
| Cat (r1 r2 : regex).

(** [strip_prefix p s] is [Some rest] when [s = p ++ rest]. *)
Fixpoint strip_prefix (p s : string) : option string :=
  match p, s with
  | EmptyString, _ => Some s
  | String a p', String b s' =>
      if Ascii.eqb a b then strip_prefix p' s' else None
  | String _ _, EmptyString => None
  end.

(** What has been read between the input [s] and its suffix [s']. *)
Definition consumed (s s' : string) : string :=
  PyStr.take (String.length s - String.length s') s.

(** The backtracking matcher of [re], in continuation-passing style:
    [run r s g k] matches [r] at the head of [s] with the group's current
    value [g] and hands the rest of the input and the group to [k]; when
    [k] fails the next alternative of [r] is tried, in the order of [re]:
    a greedy operator tries the longer match first, a lazy one the
    shorter.  The result is the first success. *)
Fixpoint run {R : Type} (r : regex) (s g : string)
    (k : string -> string -> option R) {struct r} : option R :=
  match r with
  | Lit l =>
      match strip_prefix l s with
      | Some s' => k s' g
      | None => None
      end
  | Opt r1 =>
      match run r1 s g k with
      | Some x => Some x
      | None => k s g
      end
  | Star c =>
      (fix go (s : string) : option R :=
         match s with
         | String a s' =>
             if c a then
               match go s' with
               | Some x => Some x
               | None => k s g
               end
             else k s g
         | EmptyString => k s g
         end) s
  | LazyStar c =>
      (fix go (s : string) : option R :=
         match k s g with
         | Some x => Some x
         | None =>
             match s with
             | String a s' => if c a then go s' else None
             | EmptyString => None
             end
         end) s
  | Group r1 => run r1 s g (fun s' _ => k s' (consumed s s'))
  | Cat r1 r2 => run r1 s g (fun s' g' => run r2 s' g' k)
  end.

(** [pattern.match(s)]: the group and the rest of the input after the
    match, when the pattern matches at the head of [s]. *)
Definition match_at (r : regex) (s : string) : option (string * string) :=
  run r s "" (fun s' g => Some (g, s')).

(** [re.findall(pattern, s)] for a pattern with one group: the groups of
    the non-overlapping matches, found from left to right.  [skip] is the
    number of characters still inside the previous match; the search
    resumes where that match ended.  A match that consumed nothing moves
    the search on by one character. *)
Fixpoint findall_from (r : regex) (skip : nat) (s : string) {struct s}
    : list string :=
  match skip with
  | S skip' =>
      match s with
      | String _ s' => findall_from r skip' s'
      | EmptyString => []
      end
  | O =>
      match match_at r s with
      | Some (g, rest) =>
          g :: match s with
               | String _ s' =>
                   findall_from r (String.length s - String.length rest - 1) s'
               | EmptyString => []
               end
      | None =>
          match s with
          | String _ s' => findall_from r 0 s'
          | EmptyString => []
          end
      end
  end.

Definition findall (r : regex) (s : string) : list string :=
  findall_from r 0 s.

Definition FENCE : string := "```".

(** With [re.DOTALL] the dot matches every character. *)
Definition dot (_ : ascii) : bool := true.

(** [r"```(?:python)?\s*(.*?)\s*```"] with [flags=re.DOTALL]. *)
Definition code_pattern : regex :=
  Cat (Lit FENCE)
   (Cat (Opt (Lit "python"))
     (Cat (Star PyStr.isspace)
       (Cat (Group (LazyStar dot))
         (Cat (Star PyStr.isspace) (Lit FENCE))))).

Definition extract_code_blocks (response : string) : string :=
  let code_match := findall code_pattern response in
  match code_match with
  | [] => ""
  | _ :: _ => last code_match ""
  end.

(** [\s*```] read at the head of [s]: the rest after the closing fence. *)
Definition closes (s : string) : option string :=
  strip_prefix FENCE (PyStr.lstrip s).

(** The shortest body after which [\s*```] can be read, with the rest of
    the input after the closing fence. *)
Fixpoint find_close (s : string) : option (string * string) :=
  match closes s with
  | Some rest => Some ("", rest)
  | None =>
      match s with
      | String a s' =>
          match find_close s' with
          | Some (b, rest) => Some (String a b, rest)
          | None => None
          end
      | EmptyString => None
      end
  end.

(** The match of [code_pattern] at the head of [s], read off without
    backtracking: the opening fence, the tag when it is there and a
    closing fence follows, all the white space, then the shortest body. *)
Definition block_at (s : string) : option (string * string) :=
  match strip_prefix FENCE s with
  | None => None
  | Some s1 =>
      match
        match strip_prefix "python" s1 with
        | Some s2 => find_close (PyStr.lstrip s2)
        | None => None
        end
      with
      | Some x => Some x
      | None => find_close (PyStr.lstrip s1)
      end
  end.

Definition starts_with_space (s : string) : bool :=
  match s with
  | String a _ => PyStr.isspace a
  | EmptyString => false
  end.

(** Every character of [s] is white space. *)
Fixpoint all_space (s : string) : bool :=
  match s with
  | EmptyString => true
  | String c s' => PyStr.isspace c && all_space s'
  end.

End Extractor.

(* ------------------------------------------------------------------ *)
(** ** Configurable settings *)

(** The module-level settings of the script.  [TEMPERATURE] is the pair
    (numerator, denominator) of the decimal literal. *)
Record Config : Type := mkConfig {
  API_MODE : string;
  OPENAI_API_KEY : string;
  MODEL_NAME : string;
  TEMPERATURE : Z * Z;
  MAX_TOKENS : Z;
  MAX_CODE_HISTORY : Z;
  MAX_FAIL_WO_FDBK : nat;
  PASS_STR : string;
  FAIL_STR : string;
  LOCAL_API_URL : string
}.

(** The settings as the source sets them. *)
Definition source_config : Config := {|
  API_MODE := "local";
  OPENAI_API_KEY := "sk-ABCD";
  MODEL_NAME := "mistral-small-24b-instruct-2501";
  TEMPERATURE := (5, 10)%Z;
  MAX_TOKENS := 32768;
  MAX_CODE_HISTORY := 3;
  MAX_FAIL_WO_FDBK := 10;
  PASS_STR := "Project output fully satisfies project description, that is the final version and we can stop iterating";
  FAIL_STR := "Project output does not fully satisfy project description, submitting revised script to re-evaluate output";
  LOCAL_API_URL := "http://127.0.0.1:1234/v1/chat/completions"
|}.

(* ------------------------------------------------------------------ *)
(** ** The world outside the process, and the monad of its effects *)

(** What the script writes and how often it has asked each external
    collaborator: the lines sent to [log_print] (oldest first), the files
    written with [open(name, "w")] (oldest first; a later write of the
    same name replaces the earlier one), and the numbers of completion
    calls, child processes and operator prompts so far. *)
Record World : Type := mkWorld {
  log_lines : list string;
  files : list (string * string);
  n_completions : nat;
  n_runs : nat;
  n_inputs : nat
}.

Definition M (A : Type) : Type := World -> A * World.

Definition ret {A : Type} (a : A) : M A := fun w => (a, w).

Definition bind {A B : Type} (m : M A) (f : A -> M B) : M B :=
  fun w => let '(a, w') := m w in f a w'.

Notation "x <- m ;; k" := (bind m (fun x => k))
  (at level 61, m at next level, right associativity).
Notation "' pat <- m ;; k" := (bind m (fun x => let pat := x in k))
  (at level 61, pat pattern, m at next level, right associativity).
Notation "m ;; k" := (bind m (fun _ => k))
  (at level 61, right associativity).

(** [log_print(message)]: one more line on the console and in the log. *)
Definition log_print (message : string) : M unit :=
  fun w => (tt, {| log_lines := log_lines w ++ [message];
                   files := files w;
                   n_completions := n_completions w;
                   n_runs := n_runs w;
                   n_inputs := n_inputs w |}).

(** [with open(filename, "w") as f: f.write(text)] *)
Definition write_file (filename text : string) : M unit :=
  fun w => (tt, {| log_lines := log_lines w;
                   files := files w ++ [(filename, text)];
                   n_completions := n_completions w;
                   n_runs := n_runs w;
                   n_inputs := n_inputs w |}).

(** The contents of a file: its last write. *)
Fixpoint read_file (fs : list (string * string)) (filename : string)
    : option string :=
  match fs with
  | [] => None
  | (name, text) :: fs' =>
      match read_file fs' filename with
      | Some later => Some later
      | None => if (name =? filename)%string then Some text else None
      end
  end.

Definition empty_world : World :=
  {| log_lines := []; files := []; n_completions := 0; n_runs := 0;
     n_inputs := 0 |}.

(** A raised exception: its class and [str(e)].  Only instances of
    [Exception] are modelled. *)
Inductive exn : Type := Raised (cls msg : string).

Definition str_of_exn (e : exn) : string :=
  match e with Raised _ msg => msg end.

(** A computation that returns or raises. *)
Definition Result (A : Type) : Type := (exn + A)%type.

Definition rbind {A B : Type} (r : Result A) (f : A -> Result B)
    : Result B :=
  match r with
  | inl e => inl e
  | inr a => f a
  end.

Notation "x <-! r ;; k" := (rbind r (fun x => k))
  (at level 61, r at next level, right associativity).

(* ------------------------------------------------------------------ *)
(** ** Completion client: [openai_chat_completion] *)

Module Client.

(** A value decoded from JSON ([response.json()]), or the object the
    managed API hands back. *)
Inductive json : Type :=
| JNull
| JBool (b : bool)
| JInt (z : Z)
| JFloat (mantissa exponent : Z)
| JStr (s : string)
| JArr (items : list json)
| JObj (fields : list (string * json)).

Fixpoint lookup (fields : list (string * json)) (key : string)
    : option json :=
  match fields with
  | [] => None
  | (k, v) :: fields' =>
      if (k =? key)%string then Some v else lookup fields' key
  end.

(** [v[key]] for a string key. *)
Definition getitem_key (v : json) (key : string) : Result json :=
  match v with
  | JObj fields =>
      match lookup fields key with
      | Some x => inr x
      | None => inl (Raised "KeyError" ("'" +++ key +++ "'"))
      end
  | JArr _ =>
      inl (Raised "TypeError" "list indices must be integers or slices, not str")
  | JStr _ => inl (Raised "TypeError" "string indices must be integers")
  | JNull => inl (Raised "TypeError" "'NoneType' object is not subscriptable")
  | JBool _ => inl (Raised "TypeError" "'bool' object is not subscriptable")
  | JInt _ => inl (Raised "TypeError" "'int' object is not subscriptable")
  | JFloat _ _ =>
      inl (Raised "TypeError" "'float' object is not subscriptable")
  end.

(** [v[0]]. *)
Definition getitem_0 (v : json) : Result json :=
  match v with
  | JArr (x :: _) => inr x
  | JArr [] => inl (Raised "IndexError" "list index out of range")
  | JStr (String c _) => inr (JStr (String c EmptyString))
  | JStr EmptyString => inl (Raised "IndexError" "string index out of range")
  | JObj _ => inl (Raised "KeyError" "0")
  | JNull => inl (Raised "TypeError" "'NoneType' object is not subscriptable")
  | JBool _ => inl (Raised "TypeError" "'bool' object is not subscriptable")
  | JInt _ => inl (Raised "TypeError" "'int' object is not subscriptable")
  | JFloat _ _ =>
      inl (Raised "TypeError" "'float' object is not subscriptable")
  end.

(** The body of an HTTP request to the self-hosted endpoint, and the
    keyword arguments of the managed API call. *)
Record Payload : Type := mkPayload {
  p_model : string;
  p_messages : Transcript;
  p_temperature : Z * Z;
  p_max_tokens : Z
}.

(** What [requests.post] returns: the status line, the final URL and
    the body as [response.json()] reads it ([inl] when it raises). *)
Record Response : Type := mkResponse {
  status_code : nat;
  reason : string;
  url : string;
  json_body : Result json
}.

(** The two backends. *)
Record Backend : Type := mkBackend {
  requests_post :
    string -> Payload -> list (string * string) -> Result Response;
  ChatCompletion_create : Payload -> Result json
}.

(** [response.raise_for_status()] *)
Definition raise_for_status (r : Response) : Result unit :=
  if (400 <=? status_code r) && (status_code r <? 500) then
    inl (Raised "HTTPError"
           (PyStr.str_of_nat (status_code r) +++ " Client Error: "
            +++ reason r +++ " for url: " +++ url r))
  else if (500 <=? status_code r) && (status_code r <? 600) then
    inl (Raised "HTTPError"
           (PyStr.str_of_nat (status_code r) +++ " Server Error: "
            +++ reason r +++ " for url: " +++ url r))
  else inr tt.

Section Completion.
Variable cfg : Config.
Variable backend : Backend.

Definition payload (messages : Transcript) : Payload :=
  {| p_model := MODEL_NAME cfg;
     p_messages := messages;
     p_temperature := TEMPERATURE cfg;
     p_max_tokens := MAX_TOKENS cfg |}.

(** [completion["choices"][0]["message"]["content"]], the value both
    branches return. *)
Definition content_of (completion : json) : Result json :=
  choices <-! getitem_key completion "choices" ;;
  choice <-! getitem_0 choices ;;
  message <-! getitem_key choice "message" ;;
  getitem_key message "content".

(** The [try] block of the managed-API branch. *)
Definition try_openai (messages : Transcript) : Result json :=
  completion <-! ChatCompletion_create backend (payload messages) ;;
  content_of completion.

(** The headers of a request to the self-hosted endpoint. *)
Definition request_headers : list (string * string) :=
  let headers := [("Content-Type", "application/json")] in
  if PyStr.truthy (OPENAI_API_KEY cfg)
  then headers ++ [("Authorization", "Bearer " +++ OPENAI_API_KEY cfg)]
  else headers.

(** The [try] block of the self-hosted branch. *)
Definition try_local (messages : Transcript) : Result json :=
  let headers := request_headers in
  let data := payload messages in
  response <-! requests_post backend (LOCAL_API_URL cfg) data headers ;;
  _ <-! raise_for_status response ;;
  completion <-! json_body response ;;
  content_of completion.

Definition ERROR_TEXT : string := "No response due to an error.".

Definition openai_chat_completion (messages : Transcript) : M json :=
  if (API_MODE cfg =? "openai")%string then
    match try_openai messages with
    | inr text => ret text
    | inl e =>
        log_print ("Error calling OpenAI API: " +++ str_of_exn e) ;;
        ret (JStr ERROR_TEXT)
    end
  else if (API_MODE cfg =? "local")%string then
    match try_local messages with
    | inr text => ret text
    | inl e =>
        log_print ("Error calling Local API: " +++ str_of_exn e) ;;
        ret (JStr ERROR_TEXT)
    end
  else
    log_print "Invalid API_MODE selected!" ;;
    ret (JStr "No response due to error in API_MODE.").

(** The request of the self-hosted branch. *)
Definition post (messages : Transcript) : Result Response :=
  requests_post backend (LOCAL_API_URL cfg) (payload messages)
    request_headers.

(** The failures that make the [try] block raise, by kind: the request
    does not get through; the answer has an error status (the 400s and
    500s, for which [raise_for_status] raises); its body is not JSON;
    the decoded value, or the object the managed API returns, has
    nothing at [choices][0][message][content]; the managed API call
    raises.  An answer with another status, or with a value at that path
    that is not text, is none of these. *)
Inductive backend_error (messages : Transcript) : Prop :=
| network_failure (e : exn) :
    API_MODE cfg = "local" ->
    post messages = inl e ->
    backend_error messages
| error_status (r : Response) :
    API_MODE cfg = "local" ->
    post messages = inr r ->
    400 <= status_code r < 600 ->
    backend_error messages
| malformed_body (r : Response) (e : exn) :
    API_MODE cfg = "local" ->
    post messages = inr r ->
    json_body r = inl e ->
    backend_error messages
| malformed_shape (r : Response) (v : json) (e : exn) :
    API_MODE cfg = "local" ->
    post messages = inr r ->
    json_body r = inr v ->
    content_of v = inl e ->
    backend_error messages
| api_exception (e : exn) :
    API_MODE cfg = "openai" ->
    ChatCompletion_create backend (payload messages) = inl e ->
    backend_error messages
| api_shape (v : json) (e : exn) :
    API_MODE cfg = "openai" ->
    ChatCompletion_create backend (payload messages) = inr v ->
    content_of v = inl e ->
    backend_error messages.

End Completion.

End Client.

(* ------------------------------------------------------------------ *)
(** ** Iteration controller: [main] and its helpers *)

Module Controller.

Import PyStr.

(** The local variables of [main] that live across iterations. *)
Record LoopState : Type := mkLoopState {
  conversation_history : Transcript;
  feedback_round : nat;
  code_iter : nat;
  project_complete : bool;
  last_run_output : string;
  current_code : string;
  total_passes : nat;
  total_fails : nat;
  pending_fail_code : option string;
  fails_since_feedback : nat
}.

(** How a child process ends: it returns (standard output, standard
    error, and the text [f"{duration:.2f}"] of the measured time), it
    exceeds [TIMEOUT], or starting it raises. *)
Inductive run_outcome : Type :=
| Completed (stdout stderr duration : string)
| TimeoutExpired
| RunRaised (e : exn).

Definition SYSTEM_ROLE : string := "system".
Definition USER_ROLE : string := "user".
Definition ASSISTANT_ROLE : string := "assistant".

Section Main.

Variable cfg : Config.

(** Fixed when the process starts: the script's name, the UTC time stamp
    and [os.path.abspath]. *)
Variable script_name : string.
Variable timestamp : string.
Variable abspath : string -> string.

(** The external collaborators, each answering its k-th call: the
    completion client as [main] uses it (a transcript in, text out), the
    child process of [run_code], and the operator at the terminal. *)
Variable complete : nat -> Transcript -> string.
Variable subprocess_run : nat -> string -> run_outcome.
Variable input : nat -> string.

Definition openai_chat_completion (messages : Transcript) : M string :=
  fun w => (complete (n_completions w) messages,
            {| log_lines := log_lines w;
               files := files w;
               n_completions := S (n_completions w);
               n_runs := n_runs w;
               n_inputs := n_inputs w |}).

Definition read_input : M string :=
  fun w => (input (n_inputs w),
            {| log_lines := log_lines w;
               files := files w;
               n_completions := n_completions w;
               n_runs := n_runs w;
               n_inputs := S (n_inputs w) |}).

(** [run_code]; the temporary file is gone when it returns. *)
Definition run_code (code_string : string) : M string :=
  fun w =>
    (match subprocess_run (n_runs w) code_string with
     | Completed stdout stderr duration =>
         (stdout +++ nl +++ stderr)
         +++ nl +++ "[Code execution took " +++ duration +++ " seconds.]" +++ nl
     | TimeoutExpired => "Error: Code timed out."
     | RunRaised e => "Error: " +++ str_of_exn e
     end,
     {| log_lines := log_lines w;
        files := files w;
        n_completions := n_completions w;
        n_runs := S (n_runs w);
        n_inputs := n_inputs w |}).

Definition artifact_name (feedback_iter code_iter : nat) (ext : string)
    : string :=
  script_name +++ "_" +++ timestamp +++ "_fdbk" +++ str_of_nat feedback_iter
  +++ "_iter" +++ str_of_nat code_iter +++ ext.

Definition save_code_permanently (code_string : string)
    (feedback_iter code_iter : nat) : M string :=
  let filename := artifact_name feedback_iter code_iter ".py" in
  write_file filename code_string ;;
  ret (abspath filename).

Definition save_output_permanently (output_string : string)
    (feedback_iter code_iter : nat) : M string :=
  let filename := artifact_name feedback_iter code_iter ".txt" in
  write_file filename output_string ;;
  ret (abspath filename).

Definition request_user_feedback : M (option string) :=
  log_print "User, please review and provide feedback or press Enter to skip." ;;
  user_feedback <- read_input ;;
  log_print ("<<User feedback:>> " +++ user_feedback) ;;
  if truthy (strip user_feedback) then ret (Some user_feedback)
  else ret None.

(** [handle_user_feedback]; the list it appends to is the caller's, so
    the new transcript is returned with the two counters. *)
Definition handle_user_feedback (user_feedback : string)
    (conversation_history : Transcript) (feedback_round : nat)
    : M (Transcript * nat * nat) :=
  log_print "User provided feedback => requesting further code updates." ;;
  let feedback_round := feedback_round + 1 in
  let code_iter := 0 in
  let feedback_msg :=
    "User Feedback:" +++ nl +++ user_feedback +++ nl
    +++ "Please revise or improve the code accordingly, returning only the code in triple backticks, no pass/fail statements." in
  ret (conversation_history ++ [mkMessage USER_ROLE feedback_msg],
       feedback_round, code_iter).

Definition system_prompt : string :=
  "You are a helpful AI assistant that writes Python code to satisfy a project description." +++ nl +++ nl
  +++ "We will do this in **two** main steps each iteration, plus a user feedback review:" +++ nl +++ nl
  +++ "1) Initial Code Generation Step:" +++ nl
  +++ "   - We provide a project description." +++ nl
  +++ "   - You return valid Python code in a single code block, with no pass/fail statements." +++ nl +++ nl
  +++ "2) Code Judgment Step:" +++ nl
  +++ "   - We provide the project description, your code, and the code's output." +++ nl
  +++ "   - If the output satisfies the project, reply exactly:" +++ nl +++ nl
  +++ "'" +++ PASS_STR cfg +++ "'" +++ nl +++ nl
  +++ "   - If not, start your reply with exactly:" +++ nl +++ nl
  +++ "'" +++ FAIL_STR cfg +++ "'" +++ nl +++ nl
  +++ "   - No extra commentary outside these instructions please." +++ nl +++ nl.

Definition project_description : string :=
  nl
  +++ "    You, an LLM, are being called by a python script on my, the user's, computer." +++ nl
  +++ "    You are running locally thus I am not paying per token, and I can run you indefinitely for only electricity cost." +++ nl
  +++ "    The API to access you is located at http://127.0.0.1:1234/v1/chat/completions" +++ nl
  +++ "    Please try to write a python script that demonstrates connecting to the API and getting a test response in a chat message format." +++ nl
  +++ "    The output format should resemble an IRC log, as [timestamp] <user>:" +++ nl
  +++ "    ".

Definition prune (conversation_history : Transcript) : Transcript :=
  Pruner.prune_history conversation_history (MAX_CODE_HISTORY cfg).

(** The code generation step of one iteration: the state, [new_code] and
    [generation_skipped]. *)
Definition generation_step (st : LoopState)
    : M (LoopState * string * bool) :=
  match pending_fail_code st with
  | Some pending =>
      let code_iter := code_iter st + 1 in
      log_print (nl +++ "---- Using GPT-provided code from fail response => feedback "
                 +++ str_of_nat (feedback_round st) +++ ", code iteration "
                 +++ str_of_nat code_iter +++ " ----") ;;
      ret ({| conversation_history := conversation_history st;
              feedback_round := feedback_round st;
              code_iter := code_iter;
              project_complete := project_complete st;
              last_run_output := last_run_output st;
              current_code := current_code st;
              total_passes := total_passes st;
              total_fails := total_fails st;
              pending_fail_code := None;
              fails_since_feedback := fails_since_feedback st |},
           pending, true)
  | None =>
      let code_iter := code_iter st + 1 in
      log_print (nl +++ "==== Code Generation Step => Feedback "
                 +++ str_of_nat (feedback_round st) +++ ", Code Iteration "
                 +++ str_of_nat code_iter +++ " ====") ;;
      let user_msg_gen :=
        "We are in the Code Generation Step." +++ nl
        +++ "Project description:" +++ nl +++ project_description +++ nl +++ nl
        +++ "Please return full valid Python code (in triple backticks) with no pass/fail statements." +++ nl in
      let history := conversation_history st ++ [mkMessage USER_ROLE user_msg_gen] in
      let history := prune history in
      response_gen <- openai_chat_completion history ;;
      log_print ("---- GPT Response (Code Generation) ----" +++ nl) ;;
      log_print response_gen ;;
      let history := history ++ [mkMessage ASSISTANT_ROLE response_gen] in
      let new_code := Extractor.extract_code_blocks response_gen in
      if negb (truthy (strip new_code)) then
        log_print "*** WARNING: GPT returned no valid code. ***" ;;
        ret ({| conversation_history := history;
                feedback_round := feedback_round st;
                code_iter := code_iter;
                project_complete := project_complete st;
                last_run_output := "No code was returned.";
                current_code := current_code st;
                total_passes := total_passes st;
                total_fails := total_fails st;
                pending_fail_code := None;
                fails_since_feedback := fails_since_feedback st |},
             "", false)
      else
        code_path <- save_code_permanently new_code (feedback_round st) code_iter ;;
        log_print ("==> Code saved to: " +++ code_path) ;;
        ret ({| conversation_history := history;
                feedback_round := feedback_round st;
                code_iter := code_iter;
                project_complete := project_complete st;
                last_run_output := last_run_output st;
                current_code := current_code st;
                total_passes := total_passes st;
                total_fails := total_fails st;
                pending_fail_code := None;
                fails_since_feedback := fails_since_feedback st |},
             new_code, false)
  end.

(** The run step: [current_code] and [last_run_output] are set. *)
Definition run_step (st : LoopState) (new_code : string) : M LoopState :=
  if truthy (strip new_code) then
    log_print (nl +++ "---- Running code => feedback "
               +++ str_of_nat (feedback_round st) +++ ", iteration "
               +++ str_of_nat (code_iter st) +++ " ----") ;;
    output <- run_code new_code ;;
    log_print "-------- Code Output --------" ;;
    log_print output ;;
    log_print ("----------------------------" +++ nl) ;;
    out_path <- save_output_permanently output (feedback_round st) (code_iter st) ;;
    log_print ("==> Output saved to: " +++ out_path) ;;
    ret {| conversation_history := conversation_history st;
           feedback_round := feedback_round st;
           code_iter := code_iter st;
           project_complete := project_complete st;
           last_run_output := output;
           current_code := new_code;
           total_passes := total_passes st;
           total_fails := total_fails st;
           pending_fail_code := pending_fail_code st;
           fails_since_feedback := fails_since_feedback st |}
  else
    ret {| conversation_history := conversation_history st;
           feedback_round := feedback_round st;
           code_iter := code_iter st;
           project_complete := project_complete st;
           last_run_output := "No code was run.";
           current_code := "";
           total_passes := total_passes st;
           total_fails := total_fails st;
           pending_fail_code := pending_fail_code st;
           fails_since_feedback := fails_since_feedback st |}.

(** The judgment step up to the judge's reply, which is returned. *)
Definition judgment_step (st : LoopState) : M (LoopState * string) :=
  log_print ("==== Code Judgment Step => feedback "
             +++ str_of_nat (feedback_round st) +++ ", code iteration "
             +++ str_of_nat (code_iter st) +++ " ====") ;;
  let user_msg_judge :=
    "We are in the Code Judgment Step." +++ nl
    +++ "Project description:" +++ nl +++ project_description +++ nl +++ nl
    +++ "Here is the code:" +++ nl
    +++ "```python" +++ nl +++ current_code st +++ nl +++ "```" +++ nl +++ nl
    +++ "And here is the output:" +++ nl +++ last_run_output st +++ nl +++ nl
    +++ "If the output satisfies the project, reply exactly:" +++ nl
    +++ PASS_STR cfg +++ nl +++ nl
    +++ "Otherwise reply exactly:" +++ nl +++ FAIL_STR cfg +++ nl +++ nl
    +++ "Followed by a failure analysis, and then a final updated version." in
  let history := conversation_history st ++ [mkMessage USER_ROLE user_msg_judge] in
  let history := prune history in
  response_judge <- openai_chat_completion history ;;
  log_print ("---- GPT Response (Code Judgment) ----" +++ nl) ;;
  log_print response_judge ;;
  let history := history ++ [mkMessage ASSISTANT_ROLE response_judge] in
  ret ({| conversation_history := history;
          feedback_round := feedback_round st;
          code_iter := code_iter st;
          project_complete := project_complete st;
          last_run_output := last_run_output st;
          current_code := current_code st;
          total_passes := total_passes st;
          total_fails := total_fails st;
          pending_fail_code := pending_fail_code st;
          fails_since_feedback := fails_since_feedback st |},
       response_judge).

(** The verdict the [if]/[elif]/[else] chain on the judge's reply reads:
    the PASS phrase is looked for first. *)
Inductive Verdict : Type := Pass | Fail | Incomplete.

Definition classify (response_judge : string) : Verdict :=
  let lower_resp := lower response_judge in
  if contains (lower (PASS_STR cfg)) lower_resp then Pass
  else if contains (lower (FAIL_STR cfg)) lower_resp then Fail
  else Incomplete.

(** The assignment [pending_fail_code = revised_code] when the reply
    holds a code block. *)
Definition stash_revised (revised_code : string) (st : LoopState)
    : LoopState :=
  {| conversation_history := conversation_history st;
     feedback_round := feedback_round st;
     code_iter := code_iter st;
     project_complete := project_complete st;
     last_run_output := last_run_output st;
     current_code := current_code st;
     total_passes := total_passes st;
     total_fails := total_fails st;
     pending_fail_code := Some revised_code;
     fails_since_feedback := fails_since_feedback st |}.

(** The operator answered with feedback: the result of
    [handle_user_feedback] is stored. *)
Definition take_feedback (user_feedback : string) (st : LoopState)
    : M LoopState :=
  ' (history, round, iter) <-
      handle_user_feedback user_feedback (conversation_history st)
        (feedback_round st) ;;
  ret {| conversation_history := history;
         feedback_round := round;
         code_iter := iter;
         project_complete := project_complete st;
         last_run_output := last_run_output st;
         current_code := current_code st;
         total_passes := total_passes st;
         total_fails := total_fails st;
         pending_fail_code := pending_fail_code st;
         fails_since_feedback := fails_since_feedback st |}.

Definition set_fails_since_feedback (n : nat) (st : LoopState) : LoopState :=
  {| conversation_history := conversation_history st;
     feedback_round := feedback_round st;
     code_iter := code_iter st;
     project_complete := project_complete st;
     last_run_output := last_run_output st;
     current_code := current_code st;
     total_passes := total_passes st;
     total_fails := total_fails st;
     pending_fail_code := pending_fail_code st;
     fails_since_feedback := n |}.

Definition set_project_complete (st : LoopState) : LoopState :=
  {| conversation_history := conversation_history st;
     feedback_round := feedback_round st;
     code_iter := code_iter st;
     project_complete := true;
     last_run_output := last_run_output st;
     current_code := current_code st;
     total_passes := total_passes st;
     total_fails := total_fails st;
     pending_fail_code := pending_fail_code st;
     fails_since_feedback := fails_since_feedback st |}.

(** The branch on the judge's reply: the state, [gpt_pass_fail_status]
    and [user_feedback_status]. *)
Definition verdict_step (st : LoopState) (response_judge : string)
    : M (LoopState * string * string) :=
  let lower_resp := lower response_judge in
  if contains (lower (PASS_STR cfg)) lower_resp then
    let st :=
      {| conversation_history := conversation_history st;
         feedback_round := feedback_round st;
         code_iter := code_iter st;
         project_complete := project_complete st;
         last_run_output := last_run_output st;
         current_code := current_code st;
         total_passes := total_passes st + 1;
         total_fails := total_fails st;
         pending_fail_code := pending_fail_code st;
         fails_since_feedback := 0 |} in
    log_print ("~~~~ GPT indicates the project is complete. Moving to user review. ~~~~" +++ nl) ;;
    user_feedback <- request_user_feedback ;;
    match user_feedback with
    | Some text =>
        if truthy text then
          st <- take_feedback text st ;;
          ret (st, "PASS", "Changes requested")
        else
          log_print "No user feedback => project finalized. Goodbye!" ;;
          ret (set_project_complete st, "PASS", "Accepted")
    | None =>
        log_print "No user feedback => project finalized. Goodbye!" ;;
        ret (set_project_complete st, "PASS", "Accepted")
    end
  else if contains (lower (FAIL_STR cfg)) lower_resp then
    let st :=
      {| conversation_history := conversation_history st;
         feedback_round := feedback_round st;
         code_iter := code_iter st;
         project_complete := project_complete st;
         last_run_output := last_run_output st;
         current_code := current_code st;
         total_passes := total_passes st;
         total_fails := total_fails st + 1;
         pending_fail_code := pending_fail_code st;
         fails_since_feedback := fails_since_feedback st + 1 |} in
    log_print "~~~~ GPT indicates the project is NOT complete => checking for code block in fail message. ~~~~" ;;
    let revised_code := Extractor.extract_code_blocks response_judge in
    st <- (if truthy (strip revised_code) then
             log_print "Found new code in GPT's fail response => next iteration will skip code generation step." ;;
             ret (stash_revised revised_code st)
           else
             log_print "No revised code found => next iteration does normal code generation." ;;
             ret st) ;;
    if MAX_FAIL_WO_FDBK cfg <=? fails_since_feedback st then
      log_print ("Reached " +++ str_of_nat (fails_since_feedback st)
                 +++ " consecutive FAIL(s) without user feedback.") ;;
      user_feedback <- request_user_feedback ;;
      match user_feedback with
      | Some text =>
          if truthy text then
            st <- take_feedback text st ;;
            ret (set_fails_since_feedback 0 st, "FAIL", "Changes requested")
          else
            ret (set_fails_since_feedback 0 st, "FAIL",
                 "No feedback provided (continue).")
      | None =>
          ret (set_fails_since_feedback 0 st, "FAIL",
               "No feedback provided (continue).")
      end
    else ret (st, "FAIL", "No feedback yet")
  else
    log_print "~~~~ GPT did not pass or fail => treat as incomplete. Checking for code block. ~~~~" ;;
    let revised_code := Extractor.extract_code_blocks response_judge in
    if truthy (strip revised_code) then
      log_print "Found new code => next iteration will skip code generation step." ;;
      ret (stash_revised revised_code st, "INCOMPLETE", "No feedback yet")
    else
      log_print "No code found => next iteration does normal code generation." ;;
      ret (st, "INCOMPLETE", "No feedback yet").

(** The iteration summary; the five lines that print measured times are
    left out. *)
Definition iteration_summary (st : LoopState)
    (gpt_pass_fail_status user_feedback_status : string)
    (generation_skipped : bool) : M unit :=
  log_print "--------------------------------------------------------------" ;;
  log_print "Iteration Summary:" ;;
  log_print (" Feedback round:         " +++ str_of_nat (feedback_round st)) ;;
  log_print (" Code iteration:         " +++ str_of_nat (code_iter st)) ;;
  log_print (" GPT pass/fail status:   " +++ gpt_pass_fail_status) ;;
  log_print (" User feedback status:   " +++ user_feedback_status) ;;
  (if generation_skipped then
     log_print " (Used GPT-provided code from previous fail response; no new code generation call.)"
   else ret tt) ;;
  log_print ("--------------------------------------------------------------" +++ nl).

Definition set_conversation_history (history : Transcript) (st : LoopState)
    : LoopState :=
  {| conversation_history := history;
     feedback_round := feedback_round st;
     code_iter := code_iter st;
     project_complete := project_complete st;
     last_run_output := last_run_output st;
     current_code := current_code st;
     total_passes := total_passes st;
     total_fails := total_fails st;
     pending_fail_code := pending_fail_code st;
     fails_since_feedback := fails_since_feedback st |}.

(** The body of the [while] loop up to the judge's reply: the state, the
    reply and [generation_skipped]. *)
Definition iteration_to_judgment (st : LoopState)
    : M (LoopState * string * bool) :=
  let st := set_conversation_history (prune (conversation_history st)) st in
  ' (st, new_code, generation_skipped) <- generation_step st ;;
  st <- run_step st new_code ;;
  ' (st, response_judge) <- judgment_step st ;;
  ret (st, response_judge, generation_skipped).

(** The body of the [while] loop. *)
Definition iteration (st : LoopState) : M LoopState :=
  ' (st, response_judge, generation_skipped) <- iteration_to_judgment st ;;
  ' (st, gpt_pass_fail_status, user_feedback_status) <-
      verdict_step st response_judge ;;
  iteration_summary st gpt_pass_fail_status user_feedback_status
    generation_skipped ;;
  ret st.

(** [while not project_complete: ...], run for at most [fuel] passes:
    [Some] of the final state when the loop has ended by then. *)
Fixpoint while_loop (fuel : nat) (st : LoopState) : M (option LoopState) :=
  if project_complete st then ret (Some st)
  else
    match fuel with
    | O => ret None
    | S fuel' => st' <- iteration st ;; while_loop fuel' st'
    end.

Definition initial_state : LoopState :=
  {| conversation_history :=
       [mkMessage SYSTEM_ROLE system_prompt;
        mkMessage USER_ROLE project_description];
     feedback_round := 0;
     code_iter := 0;
     project_complete := false;
     last_run_output := "";
     current_code := "";
     total_passes := 0;
     total_fails := 0;
     pending_fail_code := None;
     fails_since_feedback := 0 |}.

(** [main], with the loop bounded by [fuel]. *)
Definition main (fuel : nat) : M (option LoopState) :=
  log_print "==============================================================" ;;
  log_print ("Welcome to " +++ script_name +++ "!") ;;
  log_print "We do a multi-step iteration with code generation, code judgment, and optional user feedback." ;;
  log_print ("Keeping only the last "
             +++ str_of_Z (MAX_CODE_HISTORY cfg)
             +++ " code attempts in context, plus user feedback." +++ nl) ;;
  log_print ("==============================================================" +++ nl) ;;
  log_print ("<<User project description:>>" +++ nl +++ project_description +++ nl) ;;
  final <- while_loop fuel initial_state ;;
  match final with
  | Some st =>
      log_print (nl +++ "===================== FINAL SUMMARY =====================") ;;
      log_print ("Total PASS statements: " +++ str_of_nat (total_passes st)) ;;
      log_print ("Total FAIL statements: " +++ str_of_nat (total_fails st)) ;;
      log_print "Exiting script now. Goodbye!" ;;
      ret (Some st)
  | None => ret None
  end.

End Main.

(** The variant of the classification that looks for the FAIL phrase
    first. *)
Definition classify_fail_first (cfg : Config) (response_judge : string)
    : Verdict :=
  let lower_resp := lower response_judge in
  if contains (lower (FAIL_STR cfg)) lower_resp then Fail
  else if contains (lower (PASS_STR cfg)) lower_resp then Pass
  else Incomplete.

End Controller.

(* ------------------------------------------------------------------ *)
(** ** Concrete transcripts, replies and collaborators *)

Module Samples.

Import PyStr.

Definition sys_msg : Message :=
  mkMessage "system" "You are a helpful AI assistant that writes Python code.".

Definition task_msg : Message := mkMessage "user" "print Hello".

Definition gen_msg : Message :=
  mkMessage "user"
    ("We are in the Code Generation Step." +++ nl
     +++ "Project description:" +++ nl +++ "print Hello").

Definition feedback_msg : Message :=
  mkMessage "user"
    ("User Feedback:" +++ nl +++ "greet twice" +++ nl
     +++ "Please revise or improve the code accordingly, returning only the code in triple backticks, no pass/fail statements.").

Definition reply_msg (text : string) : Message := mkMessage "assistant" text.

(** A judgment message for a program whose output happens to contain
    the words of the feedback marker. *)
Definition judge_msg_with_marker (code : string) : Message :=
  mkMessage "user"
    ("We are in the Code Judgment Step." +++ nl
     +++ "Here is the code:" +++ nl +++ code +++ nl
     +++ "And here is the output:" +++ nl +++ "User Feedback: none yet").

(** A short session: one generation round, then feedback. *)
Definition session : Transcript :=
  [sys_msg; task_msg; gen_msg; reply_msg "```print(1)```"; feedback_msg].

(** Two judgment exchanges whose user messages carry both markers. *)
Definition marked_session : Transcript :=
  [sys_msg; task_msg;
   judge_msg_with_marker "print(1)"; reply_msg "not yet";
   judge_msg_with_marker "print(2)"; reply_msg "still not"].

(** A self-hosted endpoint that is overloaded, and a managed API that
    cannot be reached. *)
Definition failing_backend : Client.Backend :=
  {| Client.requests_post := fun address _ _ =>
       inr {| Client.status_code := 503;
              Client.reason := "Service Unavailable";
              Client.url := address;
              Client.json_body :=
                inl (Raised "JSONDecodeError" "Expecting value: line 1 column 1 (char 0)") |};
     Client.ChatCompletion_create := fun _ =>
       inl (Raised "APIConnectionError" "Error communicating with OpenAI") |}.

(** A reply that quotes both verdict phrases. *)
Definition both_reply : string :=
  PASS_STR source_config +++ nl +++ FAIL_STR source_config.

(** Collaborators of a one-pass session: the first completion is a
    fenced program, every later one the PASS phrase; the program prints
    Hello; the operator just presses Enter. *)
Definition hello_complete (k : nat) (_ : Transcript) : string :=
  match k with
  | O => "```python" +++ nl +++ "print('Hello')" +++ nl +++ "```"
  | S _ => PASS_STR source_config
  end.

Definition hello_run (_ : nat) (_ : string) : Controller.run_outcome :=
  Controller.Completed "Hello" "" "0.01".

Definition enter_only (_ : nat) : string := "".

(** A judge that always fails the program and offers no new code. *)
Definition failing_complete (_ : nat) (_ : Transcript) : string :=
  FAIL_STR source_config +++ nl +++ "The output is wrong.".

Definition work_dir (filename : string) : string := "/work/" +++ filename.

(** The loop state on entry to a pass that reuses code stashed from the
    previous FAIL reply: first feedback round, one pass done. *)
Definition pending_state : Controller.LoopState :=
  {| Controller.conversation_history :=
       Controller.conversation_history (Controller.initial_state source_config);
     Controller.feedback_round := 0;
     Controller.code_iter := 1;
     Controller.project_complete := false;
     Controller.last_run_output := "";
     Controller.current_code := "print(1)";
     Controller.total_passes := 0;
     Controller.total_fails := 1;
     Controller.pending_fail_code := Some "print(2)";
     Controller.fails_since_feedback := 1 |}.

(** A self-hosted endpoint that answers with one choice. *)
Definition answer_body (text : string) : Client.json :=
  Client.JObj
    [("id", Client.JStr "chatcmpl-1");
     ("choices",
      Client.JArr
        [Client.JObj
           [("index", Client.JInt 0);
            ("message",
             Client.JObj [("role", Client.JStr "assistant");
                          ("content", Client.JStr text)])]])].

Definition answering_backend (text : string) : Client.Backend :=
  {| Client.requests_post := fun address _ _ =>
       inr {| Client.status_code := 200;
              Client.reason := "OK";
              Client.url := address;
              Client.json_body := inr (answer_body text) |};
     Client.ChatCompletion_create := fun _ => inr (answer_body text) |}.

(** A judge that fails the program and sends a revised one. *)
Definition revising_complete (_ : nat) (_ : Transcript) : string :=
  FAIL_STR source_config +++ nl +++ "The greeting is missing." +++ nl
  +++ "```python" +++ nl +++ "print(3)" +++ nl +++ "```".

(** The saved script's endpoint: overloaded, or answering. *)
Definition script_post_busy (address _ : string) (_ : Transcript)
    : Result Client.Response :=
  inr {| Client.status_code := 503;
         Client.reason := "Service Unavailable";
         Client.url := address;
         Client.json_body := inl (Raised "JSONDecodeError" "Expecting value") |}.

Definition script_post_empty (address _ : string) (_ : Transcript)
    : Result Client.Response :=
  inr {| Client.status_code := 200;
         Client.reason := "OK";
         Client.url := address;
         Client.json_body := inr (Client.JObj [("choices", Client.JArr [])]) |}.

Definition show_value (v : Client.json) : string :=
  match v with
  | Client.JStr text => text
  | _ => "None"
  end.

(** Two rounds, each answered, behind the pinned pair. *)
Definition two_round_session : Transcript :=
  [sys_msg; task_msg; gen_msg; reply_msg "```print(1)```";
   mkMessage "user" ("We are in the Code Judgment Step." +++ nl
                     +++ "Here is the code:" +++ nl +++ "print(1)");
   reply_msg "not yet"].

(** An endpoint that answers 200 with a choice whose content is null. *)
Definition null_content_backend : Client.Backend :=
  {| Client.requests_post := fun address _ _ =>
       inr {| Client.status_code := 200;
              Client.reason := "OK";
              Client.url := address;
              Client.json_body :=
                inr (Client.JObj
                       [("choices",
                         Client.JArr
                           [Client.JObj
                              [("message",
                                Client.JObj
                                  [("role", Client.JStr "assistant");
                                   ("content", Client.JNull)])]])]) |};
     Client.ChatCompletion_create := fun _ =>
       inl (Raised "APIConnectionError" "Error communicating with OpenAI") |}.

End Samples.

(* ------------------------------------------------------------------ *)
(** ** Further notions used to state properties *)

(** [l1] is [l2] with some elements left out, the others in order. *)
Inductive subseq {A : Type} : list A -> list A -> Prop :=
| subseq_nil : subseq [] []
| subseq_skip (x : A) (l1 l2 : list A) : subseq l1 l2 -> subseq l1 (x :: l2)
| subseq_keep (x : A) (l1 l2 : list A) :
    subseq l1 l2 -> subseq (x :: l1) (x :: l2).

(** A transcript that still starts with the first two messages of [h]. *)
Definition same_front (h h' : Transcript) : Prop :=
  firstn 2 h' = firstn 2 h /\ 2 <= List.length h'.

(** The window of the pruner for budget [n], on the messages behind the
    pinned pair split into an older and a newer part: either nothing is
    older and the newer part holds fewer than [n] rounds, or the newer
    part holds exactly [n] rounds and is the shortest such end of the
    transcript (it is empty, or starts with a round). *)
Definition round_window (n : Z) (older newer : list Message) : Prop :=
  (older = [] /\ (Pruner.count_rounds newer < n)%Z)
  \/ (Pruner.count_rounds newer = n
      /\ (newer = []
          \/ exists m rest, newer = m :: rest /\ Pruner.is_round m = true)).

(** The failures of a call as the specification lists them: a network
    failure, a status that is not a success status (the 200s), a
    malformed response (a body that is not JSON, or one that yields no
    text at the known path), an exception of the managed API. *)
Inductive specified_failure (cfg : Config) (backend : Client.Backend)
    (messages : Transcript) : Prop :=
| spec_network_failure (e : exn) :
    API_MODE cfg = "local" ->
    Client.post cfg backend messages = inl e ->
    specified_failure cfg backend messages
| spec_non_success_status (r : Client.Response) :
    API_MODE cfg = "local" ->
    Client.post cfg backend messages = inr r ->
    ~ (200 <= Client.status_code r < 300) ->
    specified_failure cfg backend messages
| spec_not_json (r : Client.Response) (e : exn) :
    API_MODE cfg = "local" ->
    Client.post cfg backend messages = inr r ->
    Client.json_body r = inl e ->
    specified_failure cfg backend messages
| spec_no_text (r : Client.Response) (v : Client.json) :
    API_MODE cfg = "local" ->
    Client.post cfg backend messages = inr r ->
    Client.json_body r = inr v ->
    (forall text, Client.content_of v <> inr (Client.JStr text)) ->
    specified_failure cfg backend messages
| spec_api_exception (e : exn) :
    API_MODE cfg = "openai" ->
    Client.ChatCompletion_create backend (Client.payload cfg messages) = inl e ->
    specified_failure cfg backend messages
| spec_api_no_text (v : Client.json) :
    API_MODE cfg = "openai" ->
    Client.ChatCompletion_create backend (Client.payload cfg messages) = inr v ->
    (forall text, Client.content_of v <> inr (Client.JStr text)) ->
    specified_failure cfg backend messages.


(** [log_filename = f"{script_name}_{timestamp}.txt"] *)
Definition log_filename (script_name timestamp : string) : string :=
  script_name +++ "_" +++ timestamp +++ ".txt".

Definition is_digit (c : ascii) : bool :=
  let n := nat_of_ascii c in (48 <=? n) && (n <=? 57).

Fixpoint all_digits (s : string) : bool :=
  match s with
  | EmptyString => true
  | String c s' => is_digit c && all_digits s'
  end.

(* ------------------------------------------------------------------ *)
(** ** The saved script [v42-rel1_20250326T010203Z_fdbk0_iter1.py] *)

Module SavedScript.

Import PyStr.

Definition api_url : string := "http://127.0.0.1:1234/v1/chat/completions".

Section Script.

(** [requests.post(api_url, json=payload)], by URL, model name and
    messages; the text of [datetime.now().strftime(...)]; and the text an
    f-string puts for a decoded value. *)
Variable requests_post :
  string -> string -> Transcript -> Result Client.Response.
Variable now : string.
Variable format_value : Client.json -> string.

(** The script: the lines it prints, or the exception that ends it.
    Every statement that can raise comes before the first [print]. *)
Definition script : Result (list string) :=
  response <-! requests_post api_url "your-model-name"
                 [mkMessage "user" "Hello, how are you?"] ;;
  if Client.status_code response =? 200 then
    data <-! Client.json_body response ;;
    assistant_message <-! Client.content_of data ;;
    let timestamp := now in
    inr [ "[" +++ timestamp +++ "] <user>: Hello, how are you?";
          "[" +++ timestamp +++ "] <assistant>: "
          +++ format_value assistant_message ]
  else
    inr [ "Failed to get response from API. Status code: "
          +++ str_of_nat (Client.status_code response) ].

End Script.

End SavedScript.

(* ================================================================== *)
(** * Properties of the history pruner *)

Section PrunerFacts.

Import Pruner.

Variable n : Z.

Lemma fold_loop_body (l : list Message) :
  forall kept c,
    fold_left (loop_body n) l (kept, c)
    = (kept ++ scan n l c, scan_count n l c).
Proof.
  induction l as [|m l IH]; intros kept c; simpl.
  - now rewrite app_nil_r.
  - destruct (is_feedback m).
    + rewrite IH, <- app_assoc. reflexivity.
    + destruct (c <? n)%Z.
      * destruct (is_assistant m).
        -- rewrite IH, <- app_assoc. reflexivity.
        -- destruct (is_step m).
           ++ rewrite IH, <- app_assoc. reflexivity.
           ++ apply IH.
      * apply IH.
Qed.

(** [prune_history] in closed form. *)
Lemma prune_history_unfold (T : Transcript) :
  prune_history T n
  = if List.length T <=? 2 then T
    else firstn 2 T ++ rev (scan n (rev (skipn 2 T)) 0%Z).
Proof.
  unfold prune_history. destruct (List.length T <=? 2); [reflexivity|].
  rewrite fold_loop_body. reflexivity.
Qed.

Lemma prune_history_long (a b : Message) (rest : list Message) :
  prune_history (a :: b :: rest) n
  = a :: b :: rev (scan n (rev rest) 0%Z).
Proof.
  rewrite prune_history_unfold.
  destruct rest as [|x rest]; [reflexivity|].
  reflexivity.
Qed.

Lemma scan_idempotent (l : list Message) :
  forall c, scan n (scan n l c) c = scan n l c.
Proof.
  induction l as [|m l IH]; intros c; simpl; [reflexivity|].
  destruct (is_feedback m) eqn:Hf.
  - simpl. rewrite Hf, IH. reflexivity.
  - destruct (c <? n)%Z eqn:Hc; [|apply IH].
    destruct (is_assistant m) eqn:Ha.
    + simpl. rewrite Hf, Hc, Ha, IH. reflexivity.
    + destruct (is_step m) eqn:Hs; [|apply IH].
      simpl. rewrite Hf, Hc, Ha, Hs, IH. reflexivity.
Qed.

Lemma scan_keeps_feedback (l : list Message) (m : Message) :
  is_feedback m = true -> forall c, In m l -> In m (scan n l c).
Proof.
  intros Hm. induction l as [|x l IH]; intros c Hin; simpl in *; [easy|].
  destruct Hin as [->|Hin].
  - rewrite Hm. now left.
  - destruct (is_feedback x); [right; now apply IH|].
    destruct (c <? n)%Z; [|now apply IH].
    destruct (is_assistant x); [right; now apply IH|].
    destruct (is_step x); [right|]; now apply IH.
Qed.

Lemma scan_app (l1 l2 : list Message) :
  forall c,
    scan n (l1 ++ l2) c = scan n l1 c ++ scan n l2 (scan_count n l1 c).
Proof.
  induction l1 as [|m l1 IH]; intros c; simpl; [reflexivity|].
  destruct (is_feedback m); [now rewrite IH|].
  destruct (c <? n)%Z; [|apply IH].
  destruct (is_assistant m); [now rewrite IH|].
  destruct (is_step m); [now rewrite IH|apply IH].
Qed.

Lemma scan_exhausted (l : list Message) :
  forall c, (n <= c)%Z -> scan n l c = filter is_feedback l.
Proof.
  induction l as [|m l IH]; intros c Hc; simpl; [reflexivity|].
  destruct (is_feedback m); [now rewrite (IH c Hc)|].
  destruct (Z.ltb_spec c n); [lia|]. now apply IH.
Qed.

Lemma count_rounds_cons (m : Message) (l : list Message) :
  count_rounds (m :: l)
  = ((if is_round m then 1 else 0) + count_rounds l)%Z.
Proof.
  unfold count_rounds. simpl. destruct (is_round m); cbn [List.length]; lia.
Qed.

Lemma count_rounds_app (l1 l2 : list Message) :
  count_rounds (l1 ++ l2) = (count_rounds l1 + count_rounds l2)%Z.
Proof.
  unfold count_rounds. rewrite filter_app, length_app. lia.
Qed.

Lemma count_rounds_rev (l : list Message) :
  count_rounds (rev l) = count_rounds l.
Proof.
  induction l as [|m l IH]; [reflexivity|].
  simpl rev. rewrite count_rounds_app, IH, !count_rounds_cons.
  unfold count_rounds at 2. simpl. lia.
Qed.

Lemma count_rounds_feedback_only (l : list Message) :
  count_rounds (filter is_feedback l) = 0%Z.
Proof.
  induction l as [|m l IH]; [reflexivity|]. simpl.
  destruct (is_feedback m) eqn:Hf; [|exact IH].
  rewrite count_rounds_cons, IH. unfold is_round. rewrite Hf. reflexivity.
Qed.

Lemma count_rounds_window (l : list Message) :
  count_rounds (filter in_window l) = count_rounds l.
Proof.
  induction l as [|m l IH]; [reflexivity|].
  cbn [filter]. rewrite (count_rounds_cons m l).
  destruct (in_window m) eqn:Hw.
  - rewrite count_rounds_cons, IH. reflexivity.
  - rewrite IH. unfold in_window, is_round in *.
    destruct (is_feedback m), (is_assistant m), (is_step m);
      simpl in *; congruence.
Qed.

Lemma prune_history_short (T : Transcript) :
  List.length T <= 2 -> prune_history T n = T.
Proof.
  intros H. rewrite prune_history_unfold.
  destruct (Nat.leb_spec (List.length T) 2); [reflexivity|lia].
Qed.

End PrunerFacts.

Section PrunerClaims.

Import Pruner.

(** C1.  Pruning is idempotent: pruning an already pruned transcript
    with the same budget changes nothing. *)
Theorem prune_history_idempotent (T : Transcript) (n : Z) :
  prune_history (prune_history T n) n = prune_history T n.
Proof.
  destruct T as [|a [|b rest]];
    try (rewrite !prune_history_short; simpl; auto; fail).
  rewrite (prune_history_long n a b rest).
  rewrite prune_history_long, rev_involutive, scan_idempotent.
  reflexivity.
Qed.

(** C8.  A transcript of at least two messages keeps its first two
    messages, unchanged and at the front, for every budget [n >= 0]. *)
Theorem prune_history_pinned (T : Transcript) (n : Z) :
  2 <= List.length T -> (0 <= n)%Z ->
  firstn 2 (prune_history T n) = firstn 2 T.
Proof.
  intros HT _. destruct T as [|a [|b rest]]; simpl in HT; try lia.
  rewrite prune_history_long. reflexivity.
Qed.

(** C7.  A user message that carries the feedback marker survives
    pruning whatever the budget, and costs nothing: the loop appends it
    and leaves its counter alone, so putting such a message anywhere
    after the pinned pair changes nothing else in the result. *)
Theorem prune_history_keeps_feedback (T : Transcript) (n : Z) (m : Message) :
  is_feedback m = true ->
  (In m T -> In m (prune_history T n))
  /\ (forall kept c, loop_body n (kept, c) m = (kept ++ [m], c))
  /\ (forall a b older newer,
        exists k1 k2,
          prune_history (a :: b :: older ++ newer) n = a :: b :: k1 ++ k2
          /\ prune_history (a :: b :: older ++ m :: newer) n
             = a :: b :: k1 ++ m :: k2).
Proof.
  intros Hm. split; [|split].
  - intros Hin. destruct T as [|a [|b rest]];
      try (rewrite prune_history_short; simpl; auto; fail).
    rewrite prune_history_long.
    destruct Hin as [<-|[<-|Hin]]; [now left|right; now left|].
    right; right. apply (proj1 (in_rev _ _)).
    apply scan_keeps_feedback; [exact Hm|].
    apply (proj1 (in_rev _ _)). exact Hin.
  - intros kept c. unfold loop_body. rewrite Hm. reflexivity.
  - intros a b older newer.
    exists (rev (scan n (rev older) (scan_count n (rev newer) 0%Z))),
           (rev (scan n (rev newer) 0%Z)).
    rewrite !prune_history_long, rev_app_distr, scan_app, rev_app_distr.
    split; [reflexivity|].
    rewrite rev_app_distr. cbn [rev]. rewrite <- app_assoc. cbn [app].
    rewrite scan_app. cbn [scan]. rewrite Hm.
    rewrite rev_app_distr. cbn [rev]. rewrite <- app_assoc. reflexivity.
Qed.

Lemma count_rounds_nonneg (l : list Message) : (0 <= count_rounds l)%Z.
Proof. unfold count_rounds. lia. Qed.

Lemma round_window_nil (n : Z) : (0 <= n)%Z -> round_window n [] [].
Proof.
  intros Hn. unfold round_window. change (count_rounds []) with 0%Z.
  destruct (Z.eq_dec n 0) as [->|];
    [right; split; [reflexivity|now left]|left; split; [reflexivity|lia]].
Qed.

(** The loop keeps a newest part of the remainder under the window rule
    and only the feedback of what is older; the window closes on the
    message that uses up the budget. *)
Lemma scan_window (n : Z) (l : list Message) :
  forall c, (c <= n)%Z ->
    exists new old,
      l = new ++ old
      /\ scan n l c = filter in_window new ++ filter is_feedback old
      /\ ((old = [] /\ (c + count_rounds new < n)%Z)
          \/ ((c + count_rounds new)%Z = n
              /\ (new = []
                  \/ exists m front,
                       new = front ++ [m] /\ is_round m = true))).
Proof.
  induction l as [|m l IH]; intros c Hc.
  - exists [], []. change (count_rounds []) with 0%Z.
    split; [reflexivity|]. split; [reflexivity|].
    destruct (Z.eq_dec c n); [right; split; [lia|now left]|left; split; [reflexivity|lia]].
  - destruct (Z.ltb_spec c n) as [Hlt|Hge].
    + assert (Hscan : scan n (m :: l) c
                      = (if in_window m then [m] else [])
                        ++ scan n l (c + (if is_round m then 1 else 0))%Z).
      { cbn [scan]. rewrite (proj2 (Z.ltb_lt c n) Hlt).
        unfold is_round, in_window.
        destruct (is_feedback m), (is_assistant m), (is_step m);
          cbn [negb andb orb app]; rewrite ?Z.add_0_r; reflexivity. }
      destruct (IH (c + (if is_round m then 1 else 0))%Z
                  ltac:(destruct (is_round m); lia))
        as (new & old & Hl & Hs & Hw).
      exists (m :: new), old. rewrite count_rounds_cons.
      split; [now rewrite Hl|]. split.
      * rewrite Hscan, Hs. cbn [filter]. destruct (in_window m); reflexivity.
      * destruct Hw as [[Ho Hlt']|[Heq Hmin]].
        -- left. split; [exact Ho|lia].
        -- right. split; [lia|]. right.
           destruct Hmin as [->|(x & front & -> & Hx)].
           ++ exists m, []. split; [reflexivity|].
              change (count_rounds []) with 0%Z in Heq.
              destruct (is_round m); [reflexivity|lia].
           ++ exists x, (m :: front). split; [reflexivity|exact Hx].
    + exists [], (m :: l). rewrite (scan_exhausted n _ c Hge).
      change (count_rounds []) with 0%Z.
      split; [reflexivity|]. split; [reflexivity|].
      right. split; [lia|now left].
Qed.

Lemma round_window_unique (n : Z) (o1 n1 o2 n2 : list Message) :
  o1 ++ n1 = o2 ++ n2 ->
  round_window n o1 n1 -> round_window n o2 n2 ->
  o1 = o2 /\ n1 = n2.
Proof.
  assert (Hone : forall o x n',
            x <> [] -> round_window n o (x ++ n') ->
            round_window n (o ++ x) n' -> False).
  { intros o x n' Hx H1 H2.
    assert (Hox : o ++ x <> []) by (destruct o, x; simpl; congruence).
    destruct H2 as [[Habs _]|[Hc2 _]]; [contradiction|].
    pose proof (count_rounds_nonneg x) as Hx0.
    destruct H1 as [[_ Hlt]|[Hc1 Hmin]].
    - rewrite count_rounds_app in Hlt. lia.
    - rewrite count_rounds_app in Hc1.
      destruct Hmin as [He|(m & rest & He & Hm)].
      + destruct x; simpl in He; congruence.
      + destruct x as [|y x]; [congruence|]. simpl in He.
        injection He as <- _. rewrite count_rounds_cons, Hm in Hc1.
        pose proof (count_rounds_nonneg x). lia. }
  intros Happ H1 H2.
  apply app_eq_app in Happ as [x [[Ho Hn]|[Ho Hn]]]; subst.
  - destruct x as [|y x]; [rewrite app_nil_r; auto|].
    exfalso. apply (Hone o2 (y :: x) n1); auto; discriminate.
  - destruct x as [|y x]; [rewrite app_nil_r; auto|].
    exfalso. apply (Hone o1 (y :: x) n2); auto; discriminate.
Qed.

(** C6, as the code has it.  For a budget [n >= 0] the pruned transcript
    holds at most [n] messages that the loop counts as rounds (tagged
    with a step marker, not from the assistant, and not feedback).
    Behind the pinned pair the transcript splits in exactly one way into
    an older part and a window: when it holds fewer than [n] rounds the
    window is all of it, and otherwise the window is its shortest end
    with [n] rounds, which starts at the n-th most recent round.  Of the
    window every feedback, assistant and step-tagged message is kept; of
    the older part only feedback. *)
Theorem prune_history_round_budget (T : Transcript) (n : Z) :
  (0 <= n)%Z ->
  (count_rounds (skipn 2 (prune_history T n)) <= n)%Z
  /\ exists older newer,
       skipn 2 T = older ++ newer
       /\ round_window n older newer
       /\ skipn 2 (prune_history T n)
          = filter is_feedback older ++ filter in_window newer
       /\ forall older' newer',
            skipn 2 T = older' ++ newer' ->
            round_window n older' newer' ->
            older' = older /\ newer' = newer.
Proof.
  intros Hn.
  assert (Hmain : exists older newer,
            skipn 2 T = older ++ newer
            /\ round_window n older newer
            /\ skipn 2 (prune_history T n)
               = filter is_feedback older ++ filter in_window newer).
  { destruct T as [|a [|b rest]].
    1,2: exists [], []; rewrite prune_history_short by (simpl; lia);
      (split; [reflexivity|split; [now apply round_window_nil|reflexivity]]).
    rewrite prune_history_long. cbn [skipn].
    destruct (scan_window n (rev rest) 0%Z Hn)
      as (new & old & Hsplit & Hscan & Hw).
    exists (rev old), (rev new).
    split; [rewrite <- rev_app_distr, <- Hsplit, rev_involutive; reflexivity|].
    split.
    - unfold round_window. rewrite count_rounds_rev.
      destruct Hw as [[-> Hlt]|[Heq Hmin]]; [left; split; [reflexivity|lia]|].
      right. split; [lia|].
      destruct Hmin as [->|(m & front & -> & Hm)]; [now left|right].
      exists m, (rev front). rewrite rev_app_distr. auto.
    - rewrite Hscan, rev_app_distr, <- !filter_rev. reflexivity. }
  destruct Hmain as (older & newer & Hsplit & Hw & Hres).
  split.
  - rewrite Hres, count_rounds_app, count_rounds_feedback_only,
      count_rounds_window.
    destruct Hw as [[_ Hlt]|[Heq _]]; lia.
  - exists older, newer.
    split; [exact Hsplit|]. split; [exact Hw|]. split; [exact Hres|].
    intros older' newer' Hs' Hw'.
    apply (round_window_unique n older' newer' older newer);
      [congruence|exact Hw'|exact Hw].
Qed.

End PrunerClaims.

(** The budget theorem where the budget bites: two rounds, budget 1. *)
Lemma prune_history_round_budget_witness :
  (Pruner.count_rounds
     (skipn 2 (Pruner.prune_history Samples.two_round_session 1)) <= 1)%Z
  /\ exists older newer,
       skipn 2 Samples.two_round_session = older ++ newer
       /\ round_window 1 older newer
       /\ skipn 2 (Pruner.prune_history Samples.two_round_session 1)
          = filter Pruner.is_feedback older ++ filter Pruner.in_window newer
       /\ forall older' newer',
            skipn 2 Samples.two_round_session = older' ++ newer' ->
            round_window 1 older' newer' ->
            older' = older /\ newer' = newer.
Proof. apply (prune_history_round_budget Samples.two_round_session 1). lia. Defined.

(** What the loop leaves of [two_round_session] with budget 1: the
    pinned pair, the judgment round and its reply; the generation round
    and its reply are older than the window and go. *)
Example prune_two_round_session :
  Pruner.prune_history Samples.two_round_session 1
  = firstn 2 Samples.two_round_session ++ skipn 4 Samples.two_round_session.
Proof. vm_compute. reflexivity. Qed.

(** C6 as the specification states it fails: with budget 1 both exchange
    pairs of [marked_session] survive, because their user messages are
    kept as feedback and never counted. *)
Lemma prune_history_pairs_exceed_budget :
  (Z.of_nat (Pruner.count_pairs
               (Pruner.prune_history Samples.marked_session 1)) <=? 1)%Z
  = false.
Proof. vm_compute. reflexivity. Qed.

Lemma prune_history_pinned_witness :
  firstn 2 (Pruner.prune_history Samples.session 3)
  = firstn 2 Samples.session.
Proof.
  apply (prune_history_pinned Samples.session 3); [simpl; lia|lia].
Defined.

Lemma prune_history_keeps_feedback_witness :
  In Samples.feedback_msg (Pruner.prune_history Samples.session 0).
Proof.
  apply (prune_history_keeps_feedback Samples.session 0 Samples.feedback_msg);
    [reflexivity|].
  simpl. tauto.
Defined.

(* ================================================================== *)
(** * Properties of strings *)

Section StringFacts.

Import PyStr.

Lemma append_nil_r (s : string) : s +++ "" = s.
Proof. induction s as [|a s IH]; simpl; [reflexivity|now rewrite IH]. Qed.

Lemma append_assoc (s t u : string) : (s +++ t) +++ u = s +++ t +++ u.
Proof. induction s as [|a s IH]; simpl; [reflexivity|now rewrite IH]. Qed.

Lemma length_append (s t : string) :
  String.length (s +++ t) = String.length s + String.length t.
Proof. induction s as [|a s IH]; simpl; [reflexivity|now rewrite IH]. Qed.

Lemma take_append (s t : string) : take (String.length s) (s +++ t) = s.
Proof. induction s as [|a s IH]; simpl; [reflexivity|now rewrite IH]. Qed.

Lemma strip_prefix_sound (p : string) :
  forall s r, Extractor.strip_prefix p s = Some r -> s = p +++ r.
Proof.
  induction p as [|a p IH]; intros s r H; simpl in *.
  - congruence.
  - destruct s as [|b s]; [discriminate|].
    destruct (Ascii.eqb_spec a b) as [->|]; [|discriminate].
    now rewrite (IH _ _ H).
Qed.

Lemma strip_prefix_append (p r : string) :
  Extractor.strip_prefix p (p +++ r) = Some r.
Proof.
  induction p as [|a p IH]; simpl; [reflexivity|].
  now rewrite Ascii.eqb_refl.
Qed.

Lemma prefix_strip_prefix (p : string) :
  forall s,
    String.prefix p s
    = match Extractor.strip_prefix p s with Some _ => true | None => false end.
Proof.
  induction p as [|a p IH]; intros s; [destruct s; reflexivity|].
  destruct s as [|b s]; [reflexivity|]. simpl.
  destruct (ascii_dec a b) as [->|Hne].
  - rewrite Ascii.eqb_refl. apply IH.
  - destruct (Ascii.eqb_spec a b); [contradiction|reflexivity].
Qed.

(** White space in front of a string, and what [lstrip] leaves. *)
Lemma lstrip_split (s : string) :
  exists ws, s = ws +++ lstrip s /\ Extractor.all_space ws = true.
Proof.
  induction s as [|a s (ws & Hs & Hws)]; simpl.
  - exists "". now split.
  - destruct (isspace a) eqn:Ha.
    + exists (String a ws). simpl. rewrite Ha, Hws. split; [|reflexivity].
      now rewrite <- Hs.
    + exists "". now split.
Qed.

Lemma rstrip_cons_fixed (a : ascii) (s : string) :
  rstrip s = s -> s <> "" -> rstrip (String a s) = String a s.
Proof.
  intros H Hne. simpl. rewrite H. destruct s; [contradiction|reflexivity].
Qed.

Lemma rstrip_single (a : ascii) :
  isspace a = false -> rstrip (String a "") = String a "".
Proof. intros H. simpl. now rewrite H. Qed.

End StringFacts.

(* ================================================================== *)
(** * Properties of the code extractor *)

Section ExtractorFacts.

Import PyStr Extractor.

Context {R : Type}.
Implicit Types (k : string -> string -> option R).

Lemma run_cat (r1 r2 : regex) (s g : string) k :
  run (Cat r1 r2) s g k = run r1 s g (fun s' g' => run r2 s' g' k).
Proof. reflexivity. Qed.

Lemma run_lit (l s g : string) k :
  run (Lit l) s g k
  = match strip_prefix l s with Some s' => k s' g | None => None end.
Proof. reflexivity. Qed.

Lemma run_opt (r : regex) (s g : string) k :
  run (Opt r) s g k
  = match run r s g k with Some x => Some x | None => k s g end.
Proof. reflexivity. Qed.

Lemma run_group (r : regex) (s g : string) k :
  run (Group r) s g k = run r s g (fun s' _ => k s' (consumed s s')).
Proof. reflexivity. Qed.

Lemma run_star_cons (c : ascii -> bool) (a : ascii) (s g : string) k :
  run (Star c) (String a s) g k
  = if c a then
      match run (Star c) s g k with
      | Some x => Some x
      | None => k (String a s) g
      end
    else k (String a s) g.
Proof. reflexivity. Qed.

Lemma run_lazy_unfold (c : ascii -> bool) (s g : string) k :
  run (LazyStar c) s g k
  = match k s g with
    | Some x => Some x
    | None =>
        match s with
        | String a s' => if c a then run (LazyStar c) s' g k else None
        | EmptyString => None
        end
    end.
Proof. destruct s; reflexivity. Qed.

(** A continuation that cannot succeed once more white space is put in
    front of its input gains nothing from backtracking into [\s*]. *)
Lemma lstrip_none (g : string) k :
  (forall a s', isspace a = true -> k s' g = None -> k (String a s') g = None) ->
  forall s, k (lstrip s) g = None -> k s g = None.
Proof.
  intros Hk. induction s as [|a s IH]; simpl; [easy|].
  destruct (isspace a) eqn:Ha; [|easy].
  intros H. apply Hk; [exact Ha|]. now apply IH.
Qed.

Lemma run_star_greedy (g : string) k :
  (forall a s', isspace a = true -> k s' g = None -> k (String a s') g = None) ->
  forall s, run (Star isspace) s g k = k (lstrip s) g.
Proof.
  intros Hk. induction s as [|a s IH]; [reflexivity|].
  rewrite run_star_cons. simpl lstrip.
  destruct (isspace a) eqn:Ha; [|reflexivity].
  rewrite IH. destruct (k (lstrip s) g) eqn:Hrest; [reflexivity|].
  apply Hk; [exact Ha|]. now apply (lstrip_none g k Hk).
Qed.

Lemma fence_not_after_space (a : ascii) (s : string) :
  isspace a = true -> strip_prefix FENCE (String a s) = None.
Proof.
  intros Ha. unfold FENCE. cbn [strip_prefix].
  destruct (Ascii.eqb_spec "`"%char a) as [<-|]; [discriminate Ha|reflexivity].
Qed.

(** [\s*```]: all the white space, then the fence. *)
Lemma run_closing (s g : string) k :
  run (Cat (Star isspace) (Lit FENCE)) s g k
  = match closes s with Some rest => k rest g | None => None end.
Proof.
  rewrite run_cat, run_star_greedy; [reflexivity|].
  intros a s' Ha _. rewrite run_lit, fence_not_after_space; auto.
Qed.

End ExtractorFacts.

Section ExtractorBlocks.

Import PyStr Extractor.

Let final (s' g : string) : option (string * string) := Some (g, s').

Lemma consumed_append (pre s : string) : consumed (pre +++ s) s = pre.
Proof.
  unfold consumed. rewrite length_append.
  replace (String.length pre + String.length s - String.length s)
    with (String.length pre) by lia.
  apply take_append.
Qed.

Lemma closes_space (a : ascii) (s : string) :
  isspace a = true -> closes (String a s) = closes s.
Proof. intros Ha. unfold closes. simpl. now rewrite Ha. Qed.

Lemma closes_nonspace (a : ascii) (s : string) :
  isspace a = false -> closes (String a s) = strip_prefix FENCE (String a s).
Proof. intros Ha. unfold closes. simpl. now rewrite Ha. Qed.

Lemma find_close_unfold (s : string) :
  find_close s
  = match closes s with
    | Some rest => Some ("", rest)
    | None =>
        match s with
        | String a s' =>
            match find_close s' with
            | Some (b, rest) => Some (String a b, rest)
            | None => None
            end
        | EmptyString => None
        end
    end.
Proof. destruct s; reflexivity. Qed.

(** The lazy body followed by the closing fence finds the first place
    where the closing fence can be read. *)
Lemma run_lazy_body (s0 : string) :
  forall s pre g,
    s0 = pre +++ s ->
    run (LazyStar dot) s g
      (fun s' _ =>
         run (Cat (Star isspace) (Lit FENCE)) s' (consumed s0 s') final)
    = match find_close s with
      | Some (b, rest) => Some (pre +++ b, rest)
      | None => None
      end.
Proof.
  induction s as [|a s IH]; intros pre g Hs0; subst s0;
    rewrite run_lazy_unfold, run_closing, find_close_unfold;
    rewrite consumed_append.
  - destruct (closes ""); [unfold final; now rewrite append_nil_r|reflexivity].
  - destruct (closes (String a s));
      [unfold final; now rewrite append_nil_r|].
    unfold dot at 1.
    rewrite (IH (pre +++ String a "") g)
      by (rewrite append_assoc; reflexivity).
    destruct (find_close s) as [[b rest]|]; [|reflexivity].
    now rewrite append_assoc.
Qed.

Lemma run_body (s g : string) :
  run (Cat (Group (LazyStar dot)) (Cat (Star isspace) (Lit FENCE))) s g final
  = find_close s.
Proof.
  rewrite run_cat, run_group.
  rewrite (run_lazy_body s s "" g eq_refl).
  destruct (find_close s) as [[b rest]|]; reflexivity.
Qed.

Lemma find_close_none (s : string) :
  find_close s = None -> closes s = None.
Proof.
  rewrite find_close_unfold. destruct (closes s); [discriminate|reflexivity].
Qed.

Lemma find_close_after_space (a : ascii) (s : string) :
  isspace a = true -> find_close s = None -> find_close (String a s) = None.
Proof.
  intros Ha Hs. rewrite find_close_unfold, (closes_space a s Ha).
  now rewrite (find_close_none s Hs), Hs.
Qed.

(** The pattern after the opening fence and the tag. *)
Lemma run_after_tag (s g : string) :
  run (Cat (Star isspace)
        (Cat (Group (LazyStar dot)) (Cat (Star isspace) (Lit FENCE))))
      s g final
  = find_close (lstrip s).
Proof.
  rewrite run_cat, run_star_greedy.
  - apply run_body.
  - intros a s' Ha. rewrite !run_body. now apply find_close_after_space.
Qed.

(** The backtracking matcher on [code_pattern] computes [block_at]. *)
Lemma match_at_code_pattern (s : string) :
  match_at code_pattern s = block_at s.
Proof.
  unfold match_at, code_pattern, block_at.
  rewrite run_cat, run_lit.
  destruct (strip_prefix FENCE s) as [s1|]; [|reflexivity].
  rewrite run_cat, run_opt, run_lit.
  destruct (strip_prefix "python" s1) as [s2|].
  - change (fun s' g : string => Some (g, s')) with final.
    rewrite !run_after_tag. reflexivity.
  - change (fun s' g : string => Some (g, s')) with final.
    rewrite run_after_tag. reflexivity.
Qed.

End ExtractorBlocks.

Section ExtractorClaims.

Import PyStr Extractor.

Lemma closes_sound (s rest : string) :
  closes s = Some rest ->
  exists ws, s = ws +++ FENCE +++ rest /\ all_space ws = true.
Proof.
  unfold closes. intros H. apply strip_prefix_sound in H.
  destruct (lstrip_split s) as (ws & Hs & Hws).
  exists ws. split; [|exact Hws]. now rewrite <- H.
Qed.

Lemma find_close_sound (s : string) :
  forall b rest,
    find_close s = Some (b, rest) ->
    exists ws, s = b +++ ws +++ FENCE +++ rest /\ all_space ws = true.
Proof.
  induction s as [|a s IH]; intros b rest; rewrite find_close_unfold.
  - destruct (closes "") eqn:Hc; [|discriminate].
    intros [= <- <-]. now apply closes_sound.
  - destruct (closes (String a s)) eqn:Hc.
    + intros [= <- <-]. now apply closes_sound.
    + destruct (find_close s) as [[b' rest']|]; [|discriminate].
      intros [= <- <-]. destruct (IH b' rest' eq_refl) as (ws & Hs & Hws).
      exists ws. split; [|exact Hws]. cbn [append]. now rewrite <- Hs.
Qed.

Lemma find_close_empty (s rest : string) :
  find_close s = Some ("", rest) -> closes s = Some rest.
Proof.
  rewrite find_close_unfold. destruct (closes s); [congruence|].
  destruct s as [|a s]; [discriminate|].
  destruct (find_close s) as [[b' rest']|]; discriminate.
Qed.

(** The body that is found ends in no white space. *)
Lemma find_close_rstrip (s : string) :
  forall b rest, find_close s = Some (b, rest) -> rstrip b = b.
Proof.
  induction s as [|a s IH]; intros b rest; rewrite find_close_unfold.
  - destruct (closes ""); [|discriminate]. now intros [= <- <-].
  - destruct (closes (String a s)) eqn:Hc; [now intros [= <- <-]|].
    destruct (find_close s) as [[b' rest']|] eqn:Hf; [|discriminate].
    intros [= <- <-]. destruct b' as [|c b'].
    + apply rstrip_single. destruct (isspace a) eqn:Ha; [|reflexivity].
      rewrite (closes_space a s Ha), (find_close_empty s rest' Hf) in Hc.
      discriminate.
    + apply rstrip_cons_fixed; [now apply (IH _ rest')|discriminate].
Qed.

(** It starts with white space only if the input does. *)
Lemma find_close_head (s b rest : string) :
  starts_with_space s = false ->
  find_close s = Some (b, rest) -> starts_with_space b = false.
Proof.
  intros Hs. rewrite find_close_unfold.
  destruct (closes s); [now intros [= <- <-]|].
  destruct s as [|a s]; [discriminate|].
  destruct (find_close s) as [[b' rest']|]; [|discriminate].
  now intros [= <- <-].
Qed.

Lemma lstrip_head (s : string) : starts_with_space (lstrip s) = false.
Proof.
  induction s as [|a s IH]; simpl; [reflexivity|].
  destruct (isspace a) eqn:Ha; [exact IH|exact Ha].
Qed.

Lemma lstrip_fixed (s : string) : starts_with_space s = false -> lstrip s = s.
Proof. destruct s as [|a s]; simpl; [reflexivity|]. now intros ->. Qed.

(** It holds no fence. *)
Lemma find_close_no_fence (s : string) :
  forall b rest, find_close s = Some (b, rest) -> contains FENCE b = false.
Proof.
  induction s as [|a s IH]; intros b rest; rewrite find_close_unfold.
  - destruct (closes ""); [|discriminate]. now intros [= <- <-].
  - destruct (closes (String a s)) eqn:Hc; [now intros [= <- <-]|].
    destruct (find_close s) as [[b' rest']|] eqn:Hf; [|discriminate].
    intros [= <- <-]. cbn [contains]. rewrite (IH b' rest' eq_refl).
    rewrite orb_false_r, prefix_strip_prefix.
    destruct (strip_prefix FENCE (String a b')) as [x|] eqn:Hp; [|reflexivity].
    exfalso. apply strip_prefix_sound in Hp.
    destruct (find_close_sound s b' rest' Hf) as (ws & Hs & _).
    assert (Ha : isspace a = false) by (injection Hp as -> _; reflexivity).
    rewrite (closes_nonspace a s Ha), Hs in Hc.
    change (String a (b' +++ ws +++ FENCE +++ rest'))
      with (String a b' +++ ws +++ FENCE +++ rest') in Hc.
    rewrite Hp, append_assoc, strip_prefix_append in Hc. discriminate.
Qed.

Lemma stripped_fixed (b : string) :
  lstrip b = b -> rstrip b = b -> strip b = b.
Proof. intros Hl Hr. unfold strip. now rewrite Hl. Qed.

(** What a match of the pattern is: a fenced block of the text in front
    of [rest], with the tag [python] or none, white space around the
    group, and a group with no white space at either end and no fence
    inside. *)
Lemma block_at_sound (s g rest : string) :
  block_at s = Some (g, rest) ->
  (exists tag ws1 ws2,
     s = FENCE +++ tag +++ ws1 +++ g +++ ws2 +++ FENCE +++ rest
     /\ (tag = "" \/ tag = "python")
     /\ all_space ws1 = true /\ all_space ws2 = true)
  /\ (lstrip g = g /\ rstrip g = g)
  /\ contains FENCE g = false.
Proof.
  unfold block_at.
  destruct (strip_prefix FENCE s) as [s1|] eqn:H1; [|discriminate].
  apply strip_prefix_sound in H1.
  assert (Hcore : forall tag t,
            s1 = tag +++ t -> (tag = "" \/ tag = "python") ->
            find_close (lstrip t) = Some (g, rest) ->
            (exists tag ws1 ws2,
               s = FENCE +++ tag +++ ws1 +++ g +++ ws2 +++ FENCE +++ rest
               /\ (tag = "" \/ tag = "python")
               /\ all_space ws1 = true /\ all_space ws2 = true)
            /\ (lstrip g = g /\ rstrip g = g)
            /\ contains FENCE g = false).
  { intros tag t Ht Htag Hf. split; [|split].
    - destruct (lstrip_split t) as (ws1 & Hsplit & Hws1).
      destruct (find_close_sound _ _ _ Hf) as (ws2 & Hbody & Hws2).
      exists tag, ws1, ws2. split; [|auto].
      now rewrite H1, Ht, Hsplit, Hbody.
    - split.
      + apply lstrip_fixed, (find_close_head _ _ _ (lstrip_head t) Hf).
      + apply (find_close_rstrip _ _ _ Hf).
    - apply (find_close_no_fence _ _ _ Hf). }
  destruct (strip_prefix "python" s1) as [s2|] eqn:H2.
  - apply strip_prefix_sound in H2.
    destruct (find_close (lstrip s2)) as [[g' rest']|] eqn:Hf.
    + intros [= <- <-]. apply (Hcore "python" s2); auto.
    + intros Hf'. apply (Hcore "" s1); auto.
  - intros Hf. apply (Hcore "" s1); auto.
Qed.

(** Every string [findall] returns is the group of a match somewhere in
    the text. *)
Lemma findall_from_sound (r : regex) (s : string) :
  forall skip g,
    In g (findall_from r skip s) ->
    exists pre t rest, s = pre +++ t /\ match_at r t = Some (g, rest).
Proof.
  assert (Hshift : forall a s g,
            (exists pre t rest, s = pre +++ t /\ match_at r t = Some (g, rest)) ->
            exists pre t rest,
              String a s = pre +++ t /\ match_at r t = Some (g, rest)).
  { intros a s' g (pre & t & rest & -> & Hm).
    exists (String a pre), t, rest. now split. }
  induction s as [|a s IH]; intros skip g.
  - destruct skip; simpl; [|easy].
    destruct (match_at r "") as [[g' rest]|] eqn:Hm; [|easy].
    intros [<-|[]]. exists "", "", rest. now split.
  - destruct skip; cbn [findall_from].
    + destruct (match_at r (String a s)) as [[g' rest]|] eqn:Hm.
      * intros [<-|Hin].
        -- exists "", (String a s), rest. now split.
        -- apply Hshift. now apply (IH _ _ Hin).
      * intros Hin. apply Hshift. now apply (IH _ _ Hin).
    + intros Hin. apply Hshift. now apply (IH _ _ Hin).
Qed.

Lemma block_at_needs_fence (s : string) :
  String.prefix FENCE s = false -> block_at s = None.
Proof.
  rewrite prefix_strip_prefix. unfold block_at.
  destruct (strip_prefix FENCE s); [discriminate|reflexivity].
Qed.

Lemma findall_no_fence (s : string) :
  forall skip,
    contains FENCE s = false -> findall_from code_pattern skip s = [].
Proof.
  induction s as [|a s IH]; intros skip H.
  - destruct skip; [|reflexivity]. cbn [findall_from].
    rewrite match_at_code_pattern, block_at_needs_fence; [reflexivity|].
    reflexivity.
  - cbn [contains] in H. apply orb_false_iff in H as [Hp Hc].
    destruct skip; cbn [findall_from]; [|now apply IH].
    rewrite match_at_code_pattern, (block_at_needs_fence _ Hp).
    now apply IH.
Qed.

Lemma last_in {A : Type} (l : list A) (d : A) : l <> [] -> In (last l d) l.
Proof.
  induction l as [|x l IH]; [congruence|]. intros _.
  destruct l as [|y l]; [now left|].
  right. apply IH. discriminate.
Qed.

Lemma extract_code_blocks_cases (response : string) :
  extract_code_blocks response = ""
  \/ In (extract_code_blocks response) (findall code_pattern response).
Proof.
  unfold extract_code_blocks.
  destruct (findall code_pattern response) as [|m ms] eqn:H; [now left|].
  right. apply last_in. discriminate.
Qed.

(** The group of every match, and so the extracted code, is trimmed. *)
Lemma findall_code_trimmed (response m : string) :
  In m (findall code_pattern response) -> lstrip m = m /\ rstrip m = m.
Proof.
  intros Hin. apply findall_from_sound in Hin as (pre & t & rest & _ & Hm).
  rewrite match_at_code_pattern in Hm.
  now apply block_at_sound in Hm.
Qed.

Lemma extract_code_blocks_trimmed (response : string) :
  lstrip (extract_code_blocks response) = extract_code_blocks response
  /\ rstrip (extract_code_blocks response) = extract_code_blocks response.
Proof.
  destruct (extract_code_blocks_cases response) as [->|Hin];
    [now split|now apply (findall_code_trimmed response)].
Qed.


End ExtractorClaims.


(* ================================================================== *)
(** * Properties of the completion client *)

Section ClientClaims.

Import Client.

Variable cfg : Config.
Variable backend : Backend.

Lemma raise_for_status_error (r : Response) :
  400 <= status_code r < 600 -> exists e, raise_for_status r = inl e.
Proof.
  intros [Hlo Hhi]. unfold raise_for_status.
  destruct (Nat.leb_spec 400 (status_code r)); [|lia].
  destruct (Nat.ltb_spec (status_code r) 500); [now eexists|].
  destruct (Nat.leb_spec 500 (status_code r)); [|lia].
  destruct (Nat.ltb_spec (status_code r) 600); [now eexists|lia].
Qed.

(** Whatever the [try] block raises is caught and answered with the
    placeholder. *)
Lemma openai_chat_completion_catches (messages : Transcript) (w : World) :
  (API_MODE cfg = "openai" /\ exists e, try_openai cfg backend messages = inl e)
  \/ (API_MODE cfg = "local" /\ exists e, try_local cfg backend messages = inl e) ->
  fst (openai_chat_completion cfg backend messages w) = JStr (ERROR_TEXT).
Proof.
  unfold openai_chat_completion.
  intros [[Hmode [e He]]|[Hmode [e He]]]; rewrite Hmode, He; reflexivity.
Qed.

Lemma backend_error_raises (messages : Transcript) :
  backend_error cfg backend messages ->
  (API_MODE cfg = "openai" /\ exists e, try_openai cfg backend messages = inl e)
  \/ (API_MODE cfg = "local" /\ exists e, try_local cfg backend messages = inl e).
Proof.
  intros [e Hm Hp|r Hm Hp Hs|r e Hm Hp Hb|r v e Hm Hp Hb Hc|e Hm Hc|v e Hm Hc Hv].
  - right. split; [exact Hm|]. exists e. unfold try_local.
    fold (post cfg backend messages). now rewrite Hp.
  - right. split; [exact Hm|]. destruct (raise_for_status_error r Hs) as [e He].
    exists e. unfold try_local. fold (post cfg backend messages).
    rewrite Hp. cbn [rbind]. now rewrite He.
  - right. split; [exact Hm|]. unfold try_local.
    fold (post cfg backend messages). rewrite Hp. cbn [rbind].
    destruct (raise_for_status r) as [e'|[]]; [now exists e'|].
    exists e. cbn [rbind]. now rewrite Hb.
  - right. split; [exact Hm|]. unfold try_local.
    fold (post cfg backend messages). rewrite Hp. cbn [rbind].
    destruct (raise_for_status r) as [e'|[]]; [now exists e'|].
    exists e. cbn [rbind]. now rewrite Hb.
  - left. split; [exact Hm|]. exists e. unfold try_openai. now rewrite Hc.
  - left. split; [exact Hm|]. exists e. unfold try_openai. now rewrite Hc.
Qed.

(** C4, as the code has it.  Under either backend, a call whose [try]
    block raises (the request does not get through, the status is one of
    the 400s or 500s, the body is not JSON or has nothing at
    [choices][0][message][content], the managed API raises) returns to
    its caller, and what it returns is the text
    "No response due to an error.". *)
Theorem openai_chat_completion_fail_soft (messages : Transcript) (w : World) :
  backend_error cfg backend messages ->
  fst (openai_chat_completion cfg backend messages w)
  = JStr "No response due to an error.".
Proof.
  intros H. apply openai_chat_completion_catches.
  now apply backend_error_raises.
Qed.

End ClientClaims.

(** C4 as the specification states it fails: an answer with status 200
    whose content is null is a malformed response, yet nothing raises
    and the null is returned in place of the placeholder text. *)
Lemma openai_chat_completion_returns_null :
  specified_failure source_config Samples.null_content_backend Samples.session
  /\ fst (Client.openai_chat_completion source_config Samples.null_content_backend
            Samples.session empty_world)
     = Client.JNull
  /\ fst (Client.openai_chat_completion source_config Samples.null_content_backend
            Samples.session empty_world)
     <> Client.JStr "No response due to an error.".
Proof.
  split; [|split; [reflexivity|discriminate]].
  eapply spec_no_text; [reflexivity|reflexivity|reflexivity|].
  intros text. discriminate.
Qed.

Lemma openai_chat_completion_fail_soft_witness :
  fst (Client.openai_chat_completion source_config Samples.failing_backend
         Samples.session empty_world)
  = Client.JStr "No response due to an error.".
Proof.
  apply (openai_chat_completion_fail_soft source_config Samples.failing_backend
           Samples.session empty_world).
  eapply Client.error_status; [reflexivity|reflexivity|simpl; lia].
Defined.

(* ================================================================== *)
(** * Properties of the iteration controller *)

Section ControllerFacts.

Import PyStr Controller.

Variable cfg : Config.
Variables script_name timestamp : string.
Variable abspath : string -> string.
Variable complete : nat -> Transcript -> string.
Variable subprocess_run : nat -> string -> run_outcome.
Variable input : nat -> string.

Local Abbreviation generation_step' :=
  (generation_step cfg script_name timestamp abspath complete).
Local Abbreviation run_step' :=
  (run_step script_name timestamp abspath subprocess_run).
Local Abbreviation judgment_step' := (judgment_step cfg complete).
Local Abbreviation verdict_step' := (verdict_step cfg input).
Local Abbreviation to_judgment' :=
  (iteration_to_judgment cfg script_name timestamp abspath complete
     subprocess_run).
Local Abbreviation iteration' :=
  (iteration cfg script_name timestamp abspath complete subprocess_run input).
Local Abbreviation while_loop' :=
  (while_loop cfg script_name timestamp abspath complete subprocess_run input).
Local Abbreviation artifact_name' := (artifact_name script_name timestamp).

(** Unfolding of the monad and of the primitive effects. *)
Ltac run_effects :=
  cbv beta iota zeta delta
    [bind ret log_print write_file read_input openai_chat_completion
     run_code save_code_permanently save_output_permanently
     request_user_feedback handle_user_feedback take_feedback
     iteration_summary stash_revised set_fails_since_feedback
     set_project_complete set_conversation_history
     negb fst snd log_lines files n_completions n_runs n_inputs
     conversation_history feedback_round code_iter project_complete
     last_run_output current_code total_passes total_fails
     pending_fail_code fails_since_feedback].

Ltac break_if :=
  match goal with
  | |- context [if ?c then _ else _] => destruct c eqn:?
  | |- context [match ?c with Some _ => _ | None => _ end] => destruct c eqn:?
  end.

Lemma truthy_strip (s : string) : truthy (strip s) = true -> truthy s = true.
Proof. destruct s; [discriminate|reflexivity]. Qed.

Lemma generation_step_complete (st : LoopState) (w : World) :
  project_complete (fst (fst (fst (generation_step' st w))))
  = project_complete st.
Proof.
  unfold generation_step. destruct (pending_fail_code st); run_effects;
    [reflexivity|].
  break_if; run_effects; reflexivity.
Qed.

Lemma run_step_complete (st : LoopState) (code : string) (w : World) :
  project_complete (fst (run_step' st code w)) = project_complete st.
Proof. unfold run_step. break_if; run_effects; reflexivity. Qed.

Lemma judgment_step_complete (st : LoopState) (w : World) :
  project_complete (fst (fst (judgment_step' st w))) = project_complete st.
Proof. unfold judgment_step. run_effects. reflexivity. Qed.

(** What the branch on the judge's reply does to [project_complete]:
    only a PASS answered with a blank line sets it. *)
Lemma verdict_step_complete (st : LoopState) (r : string) (w : World) :
  project_complete (fst (fst (fst (verdict_step' st r w))))
  = project_complete st
    || match classify cfg r with
       | Pass => blank (input (n_inputs w))
       | _ => false
       end.
Proof.
  unfold verdict_step, classify, blank. destruct st, w.
  destruct (contains (lower (PASS_STR cfg)) (lower r)).
  - run_effects.
    match goal with
    | |- context [truthy (strip (input ?k))] =>
        destruct (truthy (strip (input k))) eqn:Hfb
    end; run_effects.
    + rewrite (truthy_strip _ Hfb). run_effects.
      now rewrite orb_false_r.
    + now rewrite orb_true_r.
  - destruct (contains (lower (FAIL_STR cfg)) (lower r)); run_effects;
      repeat (break_if; run_effects); now rewrite orb_false_r.
Qed.

Lemma iteration_unfold (st : LoopState) (w : World) :
  fst (iteration' st w)
  = fst (fst (fst (verdict_step' (fst (fst (fst (to_judgment' st w))))
                     (snd (fst (fst (to_judgment' st w))))
                     (snd (to_judgment' st w))))).
Proof.
  unfold iteration, bind.
  destruct (to_judgment' st w) as [[[st1 r] skipped] w1].
  cbn [fst snd].
  destruct (verdict_step' st1 r w1) as [[[st2 gpt] ufs] w2].
  cbn [fst snd].
  destruct (iteration_summary st2 gpt ufs skipped w2). reflexivity.
Qed.

Lemma to_judgment_complete (st : LoopState) (w : World) :
  project_complete (fst (fst (fst (to_judgment' st w))))
  = project_complete st.
Proof.
  unfold iteration_to_judgment, bind.
  match goal with
  | |- context [generation_step' ?s w] =>
      pose proof (generation_step_complete s w) as Hg;
      destruct (generation_step' s w) as [[[st1 code] skipped] w1]
  end.
  pose proof (run_step_complete st1 code w1) as Hr.
  destruct (run_step' st1 code w1) as [st2 w2].
  pose proof (judgment_step_complete st2 w2) as Hj.
  destruct (judgment_step' st2 w2) as [[st3 r] w3].
  unfold ret. cbn [fst snd] in *. rewrite Hj, Hr, Hg. reflexivity.
Qed.

(** One pass through the loop body, on [project_complete]. *)
Lemma iteration_complete (st : LoopState) (w : World) :
  project_complete (fst (iteration' st w))
  = project_complete st
    || match classify cfg (snd (fst (fst (to_judgment' st w)))) with
       | Pass => blank (input (n_inputs (snd (to_judgment' st w))))
       | _ => false
       end.
Proof.
  rewrite iteration_unfold, verdict_step_complete, to_judgment_complete.
  reflexivity.
Qed.

(** The judge's reply of a pass through the loop body is an answer of
    the completion client. *)
Lemma to_judgment_reply (st : LoopState) (w : World) :
  exists k messages,
    snd (fst (fst (to_judgment' st w))) = complete k messages.
Proof.
  unfold iteration_to_judgment, bind.
  match goal with
  | |- context [generation_step' ?s w] =>
      destruct (generation_step' s w) as [[[st1 code] skipped] w1]
  end.
  destruct (run_step' st1 code w1) as [st2 w2].
  unfold judgment_step. destruct st2, w2. run_effects. eauto.
Qed.

Lemma while_loop_step (fuel : nat) (st : LoopState) (w : World) :
  project_complete st = false ->
  while_loop' (S fuel) st w
  = while_loop' fuel (fst (iteration' st w)) (snd (iteration' st w)).
Proof.
  intros H. cbn [while_loop]. rewrite H. unfold bind.
  destruct (iteration' st w). reflexivity.
Qed.

(** A loop none of whose passes can set [project_complete] never ends. *)
Lemma while_loop_runs_on :
  (forall st w, project_complete st = false ->
                project_complete (fst (iteration' st w)) = false) ->
  forall fuel st w,
    project_complete st = false -> fst (while_loop' fuel st w) = None.
Proof.
  intros Hstep. induction fuel as [|fuel IH]; intros st w H.
  - cbn [while_loop]. rewrite H. reflexivity.
  - rewrite (while_loop_step fuel st w H). apply IH. now apply Hstep.
Qed.

(** A FAIL that reaches the threshold asks the operator, never ends the
    loop, and leaves the counter at 0 whatever the answer. *)
Lemma verdict_step_forced_feedback (st : LoopState) (r : string) (w : World) :
  classify cfg r = Fail ->
  MAX_FAIL_WO_FDBK cfg <= fails_since_feedback st + 1 ->
  project_complete (fst (fst (fst (verdict_step' st r w))))
  = project_complete st
  /\ fails_since_feedback (fst (fst (fst (verdict_step' st r w)))) = 0
  /\ n_inputs (snd (verdict_step' st r w)) = S (n_inputs w).
Proof.
  intros Hr Hmax. split.
  - rewrite verdict_step_complete, Hr. apply orb_false_r.
  - revert Hr. unfold verdict_step, classify. destruct st, w.
    cbn [fails_since_feedback] in Hmax.
    destruct (contains (lower (PASS_STR cfg)) (lower r)); [discriminate|].
    destruct (contains (lower (FAIL_STR cfg)) (lower r)); [|discriminate].
    intros _. apply Nat.leb_le in Hmax.
    run_effects; break_if; run_effects; rewrite Hmax; run_effects;
      repeat (break_if; run_effects); split; reflexivity.
Qed.


(** A pass that reuses stashed code writes the run output and nothing
    else: no file holds the code. *)
Lemma iteration_files_pending (st : LoopState) (w : World) (code : string) :
  pending_fail_code st = Some code ->
  truthy (strip code) = true ->
  exists output,
    files (snd (iteration' st w))
    = files w
      ++ [(artifact_name' (feedback_round st) (code_iter st + 1) ".txt",
           output)].
Proof.
  intros Hp Hc. destruct st, w. cbn [pending_fail_code] in Hp. subst.
  unfold iteration, iteration_to_judgment, generation_step, run_step,
    judgment_step, verdict_step.
  run_effects. rewrite Hc. run_effects.
  repeat (break_if; run_effects); eexists; reflexivity.
Qed.

(** A pass that generates code writes the code and the run output. *)
Lemma iteration_files_fresh (st : LoopState) (w : World) :
  pending_fail_code st = None ->
  exists messages,
    let code := Extractor.extract_code_blocks
                  (complete (n_completions w) messages) in
    truthy (strip code) = true ->
    exists output,
      files (snd (iteration' st w))
      = files w
        ++ [(artifact_name' (feedback_round st) (code_iter st + 1) ".py",
             code);
            (artifact_name' (feedback_round st) (code_iter st + 1) ".txt",
             output)].
Proof.
  intros Hp. destruct st, w. cbn [pending_fail_code] in Hp. subst.
  unfold iteration, iteration_to_judgment, generation_step, run_step,
    judgment_step, verdict_step.
  run_effects. eexists. intros Hc.
  rewrite Hc. run_effects. rewrite ?Hc. run_effects.
  repeat (break_if; run_effects); eexists; rewrite <- app_assoc; reflexivity.
Qed.

End ControllerFacts.

Section ControllerClaims.

Import PyStr Controller.

Variable cfg : Config.
Variables script_name timestamp : string.
Variable abspath : string -> string.
Variable complete : nat -> Transcript -> string.
Variable subprocess_run : nat -> string -> run_outcome.
Variable input : nat -> string.

Local Abbreviation to_judgment' :=
  (iteration_to_judgment cfg script_name timestamp abspath complete
     subprocess_run).
Local Abbreviation iteration' :=
  (iteration cfg script_name timestamp abspath complete subprocess_run input).
Local Abbreviation while_loop' :=
  (while_loop cfg script_name timestamp abspath complete subprocess_run input).

(** C2.  The loop ends only through a PASS verdict answered with a blank
    line.  One pass through the body sets [project_complete] exactly
    when the judge's reply holds the PASS phrase and the operator's
    answer is empty or white space; while the flag is unset the loop
    goes into another pass and once it is set the loop is over; a FAIL
    at the threshold prompts the operator,
    does not set the flag and resets the counter whatever is answered;
    and a run in which the operator never answers with a blank line, or
    in which no reply holds the PASS phrase, does not end within any
    number of passes. *)
Theorem main_loop_ends_only_on_accepted_pass :
  (forall st w,
      project_complete (fst (iteration' st w))
      = project_complete st
        || match classify cfg (snd (fst (fst (to_judgment' st w)))) with
           | Pass => blank (input (n_inputs (snd (to_judgment' st w))))
           | Fail | Incomplete => false
           end)
  /\ (forall fuel st w,
        project_complete st = false ->
        while_loop' (S fuel) st w
        = while_loop' fuel (fst (iteration' st w)) (snd (iteration' st w)))
  /\ (forall fuel st w,
        project_complete st = true -> while_loop' fuel st w = (Some st, w))
  /\ (forall st r w,
        classify cfg r = Fail ->
        MAX_FAIL_WO_FDBK cfg <= fails_since_feedback st + 1 ->
        project_complete (fst (fst (fst (verdict_step cfg input st r w))))
        = project_complete st
        /\ fails_since_feedback (fst (fst (fst (verdict_step cfg input st r w))))
           = 0
        /\ n_inputs (snd (verdict_step cfg input st r w)) = S (n_inputs w))
  /\ ((forall k, blank (input k) = false) ->
      forall fuel st w,
        project_complete st = false -> fst (while_loop' fuel st w) = None)
  /\ ((forall k messages, classify cfg (complete k messages) <> Pass) ->
      forall fuel st w,
        project_complete st = false -> fst (while_loop' fuel st w) = None).
Proof.
  split; [|split; [|split; [|split; [|split]]]].
  - intros st w. apply iteration_complete.
  - intros fuel st w H. now apply while_loop_step.
  - intros fuel st w H. destruct fuel; cbn [while_loop]; now rewrite H.
  - intros st r w. apply verdict_step_forced_feedback.
  - intros Hin. apply while_loop_runs_on. intros st w H.
    rewrite iteration_complete, H, Hin.
    now destruct (classify cfg _).
  - intros Hnp. apply while_loop_runs_on. intros st w H.
    rewrite iteration_complete, H.
    destruct (to_judgment_reply cfg script_name timestamp abspath complete
                subprocess_run st w) as (k & messages & ->).
    specialize (Hnp k messages).
    now destruct (classify cfg (complete k messages)).
Qed.

(** C5, as the code has it.  Looking for the PASS phrase first or for
    the FAIL phrase first gives the same verdict on every reply that
    does not hold both phrases. *)
Theorem classify_order_irrelevant_without_both (r : string) :
  contains (lower (PASS_STR cfg)) (lower r)
  && contains (lower (FAIL_STR cfg)) (lower r) = false ->
  classify cfg r = classify_fail_first cfg r.
Proof.
  unfold classify, classify_fail_first.
  destruct (contains (lower (PASS_STR cfg)) (lower r)),
           (contains (lower (FAIL_STR cfg)) (lower r));
    simpl; congruence.
Qed.


End ControllerClaims.

(** C5 as the specification states it fails: a reply that holds both
    phrases is a PASS for the code and a FAIL when the FAIL phrase is
    looked for first. *)
Lemma classify_order_matters :
  Controller.classify source_config Samples.both_reply = Controller.Pass
  /\ Controller.classify_fail_first source_config Samples.both_reply
     = Controller.Fail.
Proof. split; vm_compute; reflexivity. Qed.

Lemma classify_order_irrelevant_without_both_witness :
  Controller.classify source_config (FAIL_STR source_config)
  = Controller.classify_fail_first source_config (FAIL_STR source_config).
Proof.
  apply (classify_order_irrelevant_without_both source_config
           (FAIL_STR source_config)).
  vm_compute. reflexivity.
Defined.

(** C3 at a pass that reuses stashed code: the only file written is the
    run output; the code that was run is in no file. *)
Theorem reused_code_is_not_saved :
  let world :=
    snd (Controller.iteration source_config "v42-rel1" "20250326T010203Z"
           Samples.work_dir Samples.failing_complete Samples.hello_run
           Samples.enter_only Samples.pending_state empty_world) in
  map fst (files world) = ["v42-rel1_20250326T010203Z_fdbk0_iter2.txt"]
  /\ read_file (files world) "v42-rel1_20250326T010203Z_fdbk0_iter2.txt"
     = Some ("Hello" +++ PyStr.nl +++ "" +++ PyStr.nl
             +++ "[Code execution took 0.01 seconds.]" +++ PyStr.nl)
  /\ read_file (files world) "v42-rel1_20250326T010203Z_fdbk0_iter2.py"
     = None.
Proof. vm_compute. repeat split; reflexivity. Qed.

(** The one-pass session: the loop ends after one
    pass with one PASS, no FAIL, and both artifacts written. *)
Example hello_scenario_halts :
  let run :=
    Controller.main source_config "v42-rel1" "20250326T010203Z"
      Samples.work_dir Samples.hello_complete Samples.hello_run
      Samples.enter_only 1 empty_world in
  option_map Controller.total_passes (fst run) = Some 1
  /\ option_map Controller.total_fails (fst run) = Some 0
  /\ map fst (files (snd run))
     = ["v42-rel1_20250326T010203Z_fdbk0_iter1.py";
        "v42-rel1_20250326T010203Z_fdbk0_iter1.txt"]
  /\ n_inputs (snd run) = 1.
Proof. vm_compute. repeat split; reflexivity. Qed.

(** A judge that always fails: the loop has not ended after 12 passes,
    and the operator has been prompted once, at the tenth FAIL. *)
Example failing_scenario_runs_on :
  let run :=
    Controller.main source_config "v42-rel1" "20250326T010203Z"
      Samples.work_dir Samples.failing_complete Samples.hello_run
      Samples.enter_only 12 empty_world in
  fst run = None /\ n_inputs (snd run) = 1.
Proof. vm_compute. split; reflexivity. Qed.

(* ================================================================== *)
(** * Further properties of the history pruner *)

Section PrunerMore.

Import Pruner.

Lemma subseq_refl {A : Type} (l : list A) : subseq l l.
Proof. induction l; [constructor|now constructor]. Qed.

Lemma subseq_app {A : Type} (l1 l2 k1 k2 : list A) :
  subseq l1 l2 -> subseq k1 k2 -> subseq (l1 ++ k1) (l2 ++ k2).
Proof.
  induction 1 as [|x l1 l2 H IH|x l1 l2 H IH]; intros Hk; simpl.
  - exact Hk.
  - apply subseq_skip. now apply IH.
  - apply subseq_keep. now apply IH.
Qed.

Lemma subseq_rev {A : Type} (l1 l2 : list A) :
  subseq l1 l2 -> subseq (rev l1) (rev l2).
Proof.
  induction 1 as [|x l1 l2 H IH|x l1 l2 H IH]; simpl.
  - constructor.
  - assert (Hx : subseq (rev l1 ++ []) (rev l2 ++ [x]))
      by (apply subseq_app; [exact IH|apply subseq_skip, subseq_nil]).
    now rewrite app_nil_r in Hx.
  - apply subseq_app; [exact IH|apply subseq_keep, subseq_nil].
Qed.

Lemma subseq_length {A : Type} (l1 l2 : list A) :
  subseq l1 l2 -> List.length l1 <= List.length l2.
Proof. induction 1; simpl; lia. Qed.

Lemma scan_subseq (n : Z) (l : list Message) :
  forall c, subseq (scan n l c) l.
Proof.
  induction l as [|m l IH]; intros c; simpl; [constructor|].
  destruct (is_feedback m); [apply subseq_keep, IH|].
  destruct (c <? n)%Z; [|apply subseq_skip, IH].
  destruct (is_assistant m); [apply subseq_keep, IH|].
  destruct (is_step m); [apply subseq_keep, IH|apply subseq_skip, IH].
Qed.

(** X1.  Pruning only leaves messages out: the result is the transcript
    with some messages removed and the others in their order, so it is
    never longer than the transcript. *)
Theorem prune_history_subseq (T : Transcript) (n : Z) :
  subseq (prune_history T n) T
  /\ List.length (prune_history T n) <= List.length T.
Proof.
  assert (H : subseq (prune_history T n) T).
  { destruct T as [|a [|b rest]];
      try (rewrite prune_history_short; [apply subseq_refl|simpl; lia]).
    rewrite prune_history_long. do 2 apply subseq_keep.
    pose proof (subseq_rev _ _ (scan_subseq n (rev rest) 0%Z)) as H.
    now rewrite rev_involutive in H. }
  split; [exact H|now apply subseq_length].
Qed.

Lemma scan_in_window (n : Z) (l : list Message) (x : Message) :
  forall c, In x (scan n l c) -> in_window x = true.
Proof.
  induction l as [|m l IH]; intros c; simpl; [easy|].
  unfold in_window at 1.
  destruct (is_feedback m) eqn:Hf.
  - intros [<-|H]; [unfold in_window; now rewrite Hf|now apply (IH c)].
  - destruct (c <? n)%Z; [|apply IH].
    destruct (is_assistant m) eqn:Ha.
    + intros [<-|H]; [unfold in_window; now rewrite Hf, Ha|now apply (IH c)].
    + destruct (is_step m) eqn:Hs; [|apply IH].
      intros [<-|H]; [unfold in_window; now rewrite Hf, Ha, Hs|].
      now apply (IH (c + 1)%Z).
Qed.

(** X2.  Behind the pinned pair nothing survives pruning but feedback,
    assistant replies and step-tagged messages: a user message without a
    marker is dropped whatever the budget. *)
Theorem prune_history_drops_untagged (T : Transcript) (n : Z) (x : Message) :
  In x (skipn 2 (prune_history T n)) -> in_window x = true.
Proof.
  destruct T as [|a [|b rest]];
    try (rewrite prune_history_short by (simpl; lia); simpl; easy).
  rewrite prune_history_long. cbn [skipn]. intros H.
  apply in_rev in H. now apply (scan_in_window n (rev rest) x 0%Z).
Qed.

(** X3.  With a budget of zero or less the pruned transcript is the
    pinned pair followed by exactly the feedback messages. *)
Theorem prune_history_no_budget (T : Transcript) (n : Z) :
  (n <= 0)%Z ->
  prune_history T n = firstn 2 T ++ filter is_feedback (skipn 2 T).
Proof.
  intros Hn. destruct T as [|a [|b rest]];
    try (rewrite prune_history_short by (simpl; lia); reflexivity).
  rewrite prune_history_long, (scan_exhausted n _ 0%Z Hn).
  rewrite <- filter_rev, rev_involutive. reflexivity.
Qed.

Lemma scan_ample (n : Z) (l : list Message) :
  forall c, (c + count_rounds l < n)%Z -> scan n l c = filter in_window l.
Proof.
  induction l as [|m l IH]; intros c Hc; [reflexivity|].
  rewrite count_rounds_cons in Hc.
  assert (Hpos : (0 <= count_rounds l)%Z) by (unfold count_rounds; lia).
  cbn [scan filter]. unfold in_window at 1. unfold is_round in Hc.
  destruct (Z.ltb_spec c n) as [_|Hge];
    [|destruct (negb (is_feedback m) && negb (is_assistant m) && is_step m);
      lia].
  destruct (is_feedback m), (is_assistant m), (is_step m);
    cbn [negb andb orb] in *;
    first [ rewrite (IH c) by lia; reflexivity
          | rewrite (IH (c + 1)%Z) by lia; reflexivity ].
Qed.

(** X4.  With a budget larger than the number of rounds behind the
    pinned pair, pruning drops only what is neither feedback, nor an
    assistant reply, nor step-tagged. *)
Theorem prune_history_ample_budget (T : Transcript) (n : Z) :
  (count_rounds (skipn 2 T) < n)%Z ->
  prune_history T n = firstn 2 T ++ filter in_window (skipn 2 T).
Proof.
  intros Hn. destruct T as [|a [|b rest]];
    try (rewrite prune_history_short by (simpl; lia); reflexivity).
  cbn [skipn] in Hn. rewrite prune_history_long.
  rewrite (scan_ample n (rev rest) 0%Z)
    by (rewrite count_rounds_rev; lia).
  rewrite <- filter_rev, rev_involutive. reflexivity.
Qed.

Lemma scan_count_ge (n : Z) (l : list Message) :
  forall c, (c <= scan_count n l c)%Z.
Proof.
  induction l as [|m l IH]; intros c; simpl; [lia|].
  destruct (is_feedback m); [apply IH|].
  destruct (c <? n)%Z; [|apply IH].
  destruct (is_assistant m); [apply IH|].
  destruct (is_step m); [|apply IH].
  specialize (IH (c + 1)%Z). lia.
Qed.

(** Scanning what an earlier scan kept, from a counter that is no
    smaller, keeps what a single scan from that counter keeps. *)
Lemma scan_scan (n : Z) (l : list Message) :
  forall c c', (c <= c')%Z -> scan n (scan n l c) c' = scan n l c'.
Proof.
  induction l as [|m l IH]; intros c c' Hc; [reflexivity|].
  cbn [scan]. destruct (is_feedback m) eqn:Hf.
  - cbn [scan]. rewrite Hf, (IH c c' Hc). reflexivity.
  - destruct (Z.ltb_spec c n) as [Hlt|Hge].
    + destruct (is_assistant m) eqn:Ha;
        [|destruct (is_step m) eqn:Hs].
      * cbn [scan]. rewrite Hf, Ha.
        destruct (c' <? n)%Z; now rewrite (IH c c' Hc).
      * cbn [scan]. rewrite Hf, Ha, Hs.
        destruct (Z.ltb_spec c' n).
        -- rewrite (IH (c + 1)%Z (c' + 1)%Z) by lia. reflexivity.
        -- apply IH. lia.
      * destruct (c' <? n)%Z; now apply IH.
    + destruct (Z.ltb_spec c' n); [lia|]. now apply IH.
Qed.

(** X5.  Pruning step by step loses nothing against pruning at once:
    appending messages to a pruned transcript and pruning again gives
    what pruning the unpruned transcript with the same messages appended
    gives. *)
Theorem prune_history_incremental (T ms : Transcript) (n : Z) :
  prune_history (prune_history T n ++ ms) n = prune_history (T ++ ms) n.
Proof.
  destruct T as [|a [|b rest]].
  - rewrite (prune_history_short n []) by (simpl; lia). reflexivity.
  - rewrite (prune_history_short n [a]) by (simpl; lia). reflexivity.
  - rewrite (prune_history_long n a b rest). cbn [app].
    rewrite !prune_history_long, !rev_app_distr, rev_involutive, !scan_app.
    rewrite scan_scan by apply scan_count_ge. reflexivity.
Qed.

End PrunerMore.

Lemma prune_history_drops_untagged_witness :
  Pruner.in_window Samples.feedback_msg = true.
Proof.
  apply (prune_history_drops_untagged Samples.session 0 Samples.feedback_msg).
  simpl. tauto.
Defined.

Lemma prune_history_no_budget_witness :
  Pruner.prune_history Samples.session 0
  = firstn 2 Samples.session
    ++ filter Pruner.is_feedback (skipn 2 Samples.session).
Proof. apply (prune_history_no_budget Samples.session 0). lia. Defined.

Lemma prune_history_ample_budget_witness :
  Pruner.prune_history Samples.session 3
  = firstn 2 Samples.session
    ++ filter Pruner.in_window (skipn 2 Samples.session).
Proof.
  apply (prune_history_ample_budget Samples.session 3).
  vm_compute. reflexivity.
Defined.

(* ================================================================== *)
(** * Further properties of the code extractor *)

Section ExtractorMore.

Import PyStr Extractor.

Lemma extract_code_blocks_no_fence (response : string) :
  contains FENCE (extract_code_blocks response) = false.
Proof.
  destruct (extract_code_blocks_cases response) as [->|Hin]; [reflexivity|].
  apply findall_from_sound in Hin as (pre & t & rest & _ & Hm).
  rewrite match_at_code_pattern in Hm.
  now apply block_at_sound in Hm.
Qed.

(** X6.  What the extractor returns holds no fence, so extracting from
    it again finds nothing. *)
Theorem extract_code_blocks_twice (response : string) :
  contains FENCE (extract_code_blocks response) = false
  /\ extract_code_blocks (extract_code_blocks response) = "".
Proof.
  split; [apply extract_code_blocks_no_fence|].
  unfold extract_code_blocks at 1. unfold findall.
  now rewrite (findall_no_fence _ 0 (extract_code_blocks_no_fence response)).
Qed.

Lemma contains_prefix (m post : string) : contains m (m +++ post) = true.
Proof.
  destruct (m +++ post) eqn:E; cbn [contains];
    rewrite prefix_strip_prefix, <- E, strip_prefix_append; reflexivity.
Qed.

Lemma contains_append_l (m pre s : string) :
  contains m s = true -> contains m (pre +++ s) = true.
Proof.
  intros H. induction pre as [|a pre IH]; [exact H|].
  cbn [append contains]. rewrite IH. apply orb_true_r.
Qed.

(** X7.  The extractor invents nothing: the text it returns occurs in
    the reply it was given. *)
Theorem extract_code_blocks_occurs (response : string) :
  contains (extract_code_blocks response) response = true.
Proof.
  destruct (extract_code_blocks_cases response) as [->|Hin].
  - destruct response; reflexivity.
  - remember (extract_code_blocks response) as m eqn:Em. clear Em.
    apply findall_from_sound in Hin as (pre & t & rest & -> & Hm).
    rewrite match_at_code_pattern in Hm.
    apply block_at_sound in Hm as ((tag & ws1 & ws2 & -> & _) & _).
    do 4 apply contains_append_l. apply contains_prefix.
Qed.

Lemma length_lstrip (s : string) : String.length (lstrip s) <= String.length s.
Proof.
  induction s as [|a s IH]; simpl; [lia|].
  destruct (isspace a); simpl; lia.
Qed.

Lemma length_rstrip (s : string) : String.length (rstrip s) <= String.length s.
Proof.
  induction s as [|a s IH]; simpl; [lia|].
  destruct (rstrip s); [destruct (isspace a)|]; simpl in *; lia.
Qed.

Lemma strip_fixed_inv (s : string) :
  strip s = s -> lstrip s = s /\ rstrip s = s.
Proof.
  unfold strip. intros H.
  assert (Hl : lstrip s = s).
  { destruct s as [|a s]; [reflexivity|]. simpl in *.
    destruct (isspace a); [|reflexivity].
    apply (f_equal String.length) in H. simpl in H.
    pose proof (length_rstrip (lstrip s)). pose proof (length_lstrip s). lia. }
  split; [exact Hl|]. now rewrite Hl in H.
Qed.

Lemma rstrip_tail (a : ascii) (t : string) :
  rstrip (String a t) = String a t -> t = "" \/ rstrip t = t.
Proof.
  simpl. destruct (rstrip t) as [|b u] eqn:E.
  - destruct (isspace a); [discriminate|]. intros [= <-]. now left.
  - intros [= <-]. now right.
Qed.

Lemma rstrip_space_head (a : ascii) (t : string) :
  isspace a = true -> rstrip (String a t) = String a t -> t <> "".
Proof. intros Ha H ->. simpl in H. rewrite Ha in H. discriminate. Qed.

Lemma contains_tail (p : string) (a : ascii) (t : string) :
  contains p (String a t) = false -> contains p t = false.
Proof. cbn [contains]. intros H. now apply orb_false_iff in H. Qed.

(** Inside trimmed code that holds no fence the closing fence cannot be
    read, when a line break separates the code from the fence. *)
Lemma closes_inside_code (t rest : string) :
  t <> "" -> rstrip t = t -> contains FENCE t = false ->
  closes (t +++ nl +++ FENCE +++ rest) = None.
Proof.
  induction t as [|a t IH]; intros Hne Hr Hc; [contradiction|].
  cbn [append]. destruct (isspace a) eqn:Ha.
  - rewrite (closes_space _ _ Ha).
    pose proof (rstrip_space_head a t Ha Hr) as Hne'.
    apply IH; [exact Hne'| |now apply (contains_tail _ a)].
    destruct (rstrip_tail a t Hr); [contradiction|assumption].
  - rewrite (closes_nonspace _ _ Ha). unfold FENCE at 1. cbn [strip_prefix].
    destruct (Ascii.eqb_spec "`"%char a) as [<-|]; [|reflexivity].
    destruct t as [|b t]; [reflexivity|]. cbn [append].
    destruct (Ascii.eqb_spec "`"%char b) as [<-|]; [|reflexivity].
    destruct t as [|c t]; [reflexivity|]. cbn [append].
    destruct (Ascii.eqb_spec "`"%char c) as [<-|]; [|reflexivity].
    cbn [contains] in Hc. apply orb_false_iff in Hc as [Hp _].
    rewrite prefix_strip_prefix in Hp. vm_compute in Hp. discriminate Hp.
Qed.

Lemma find_close_exact (code rest : string) :
  rstrip code = code -> contains FENCE code = false ->
  find_close (code +++ nl +++ FENCE +++ rest) = Some (code, rest).
Proof.
  induction code as [|a code IH]; intros Hr Hc.
  - rewrite find_close_unfold.
    change (closes ("" +++ nl +++ FENCE +++ rest))
      with (strip_prefix FENCE (FENCE +++ rest)).
    now rewrite strip_prefix_append.
  - rewrite find_close_unfold.
    rewrite (closes_inside_code (String a code) rest) by (auto; discriminate).
    cbn [append]. rewrite IH; [reflexivity| |now apply (contains_tail _ a)].
    destruct (rstrip_tail a code Hr) as [->|]; [reflexivity|assumption].
Qed.

Lemma findall_from_past_end (s : string) :
  findall_from code_pattern (String.length s) s = [].
Proof. induction s as [|a s IH]; [reflexivity|exact IH]. Qed.

(** X8.  Code that is trimmed and holds no fence comes back unchanged
    from the block [```python], line break, code, line break, [```]. *)
Theorem extract_code_blocks_round_trip (code : string) :
  strip code = code ->
  contains FENCE code = false ->
  extract_code_blocks ("```python" +++ nl +++ code +++ nl +++ "```") = code.
Proof.
  intros Hs Hc. destruct (strip_fixed_inv code Hs) as [Hl Hr].
  destruct code as [|a code]; [reflexivity|].
  assert (Ha : isspace a = false).
  { simpl in Hl. destruct (isspace a); [|reflexivity].
    apply (f_equal String.length) in Hl. simpl in Hl.
    pose proof (length_lstrip code). lia. }
  assert (Hm : block_at ("```python" +++ nl +++ String a code +++ nl +++ "```")
               = Some (String a code, "")).
  { change ("```python" +++ nl +++ String a code +++ nl +++ "```")
      with (FENCE +++ "python" +++ nl +++ String a code +++ nl +++ FENCE +++ "").
    unfold block_at. rewrite !strip_prefix_append.
    change (lstrip (nl +++ String a code +++ nl +++ FENCE +++ ""))
      with (lstrip (String a (code +++ nl +++ FENCE +++ ""))).
    cbn [lstrip]. rewrite Ha.
    change (String a (code +++ nl +++ FENCE +++ ""))
      with (String a code +++ nl +++ FENCE +++ "").
    now rewrite (find_close_exact (String a code) "" Hr Hc). }
  unfold extract_code_blocks, findall.
  change ("```python" +++ nl +++ String a code +++ nl +++ "```")
    with (String "`" ("``python" +++ nl +++ String a code +++ nl +++ "```"))
    in *.
  cbn [findall_from]. rewrite match_at_code_pattern, Hm.
  cbn [String.length]. rewrite Nat.sub_0_r. cbn [Nat.sub].
  rewrite Nat.sub_0_r, findall_from_past_end. reflexivity.
Qed.

End ExtractorMore.

Lemma extract_code_blocks_round_trip_witness :
  Extractor.extract_code_blocks
    ("```python" +++ PyStr.nl +++ "print(1)" +++ PyStr.nl +++ "```")
  = "print(1)".
Proof.
  apply (extract_code_blocks_round_trip "print(1)"); reflexivity.
Defined.

(* ================================================================== *)
(** * Further properties of the completion client *)

Section ClientMore.

Import Client.

(** X9.  The value at [choices][0][message][content] is found exactly
    in a decoded object whose [choices] is a list that starts with an
    object whose [message] is an object with a [content]; every other
    shape raises. *)
Theorem content_of_shape (v c : json) :
  content_of v = inr c
  <-> exists fields choice rest message,
        v = JObj fields
        /\ lookup fields "choices" = Some (JArr (JObj choice :: rest))
        /\ lookup choice "message" = Some (JObj message)
        /\ lookup message "content" = Some c.
Proof.
  split.
  - unfold content_of. destruct v as [| | | | | |fields]; try discriminate.
    cbn [getitem_key rbind].
    destruct (lookup fields "choices") as [choices|] eqn:H1; [|discriminate].
    cbn [rbind].
    destruct choices as [| | | |[|? ?]|[|x rest]|]; try discriminate.
    cbn [getitem_0 rbind].
    destruct x as [| | | | | |choice]; try discriminate.
    cbn [getitem_key rbind].
    destruct (lookup choice "message") as [message|] eqn:H2; [|discriminate].
    cbn [rbind].
    destruct message as [| | | | | |message]; try discriminate.
    cbn [getitem_key].
    destruct (lookup message "content") as [c'|] eqn:H3; [|discriminate].
    intros [= <-]. exists fields, choice, rest, message. auto.
  - intros (fields & choice & rest & message & -> & H1 & H2 & H3).
    unfold content_of. cbn [getitem_key rbind]. rewrite H1.
    cbn [rbind getitem_0 getitem_key]. rewrite H2.
    cbn [rbind getitem_key]. rewrite H3. reflexivity.
Qed.

Variable cfg : Config.
Variable backend : Backend.

(** X10.  Under the self-hosted backend an answer other than the
    placeholder always comes from a response whose status is no error
    status and whose body decodes and holds that answer at
    [choices][0][message][content]; such a call writes no log line. *)
Theorem openai_chat_completion_answer (messages : Transcript) (w : World) :
  API_MODE cfg = "local" ->
  fst (openai_chat_completion cfg backend messages w) <> JStr ERROR_TEXT ->
  exists response completion,
    post cfg backend messages = inr response
    /\ ~ (400 <= status_code response < 600)
    /\ json_body response = inr completion
    /\ content_of completion
       = inr (fst (openai_chat_completion cfg backend messages w))
    /\ snd (openai_chat_completion cfg backend messages w) = w.
Proof.
  intros Hmode. unfold openai_chat_completion. rewrite Hmode.
  change (("local" =? "openai")%string) with false.
  change (("local" =? "local")%string) with true. cbv iota.
  unfold try_local. fold (post cfg backend messages).
  destruct (post cfg backend messages) as [e|response] eqn:Hp;
    [intros H; now elim H|].
  cbn [rbind].
  destruct (raise_for_status response) as [e|[]] eqn:Hs;
    [intros H; now elim H|].
  cbn [rbind].
  destruct (json_body response) as [e|completion] eqn:Hb;
    [intros H; now elim H|].
  cbn [rbind].
  destruct (content_of completion) as [e|c] eqn:Hc; [intros H; now elim H|].
  intros _. exists response, completion.
  split; [reflexivity|]. split.
  - intros Hbad. destruct (raise_for_status_error response Hbad) as [e He].
    congruence.
  - split; [exact Hb|]. split; [exact Hc|reflexivity].
Qed.

End ClientMore.

Lemma openai_chat_completion_answer_witness :
  exists response completion,
    Client.post source_config (Samples.answering_backend "hello")
      Samples.session = inr response
    /\ ~ (400 <= Client.status_code response < 600)
    /\ Client.json_body response = inr completion
    /\ Client.content_of completion
       = inr (fst (Client.openai_chat_completion source_config
                     (Samples.answering_backend "hello") Samples.session
                     empty_world))
    /\ snd (Client.openai_chat_completion source_config
              (Samples.answering_backend "hello") Samples.session empty_world)
       = empty_world.
Proof.
  apply (openai_chat_completion_answer source_config
           (Samples.answering_backend "hello") Samples.session empty_world);
    [reflexivity|].
  vm_compute. discriminate.
Defined.

(* ================================================================== *)
(** * Further properties of the iteration controller *)

Section ArtifactNames.

Import PyStr Controller.

Lemma append_inv_head (s a b : string) : s +++ a = s +++ b -> a = b.
Proof.
  induction s as [|c s IH]; simpl; [easy|]. intros [= H]. now apply IH.
Qed.

Lemma digits_split (d1 : string) :
  forall d2 c1 c2 r1 r2,
    all_digits d1 = true -> all_digits d2 = true ->
    is_digit c1 = false -> is_digit c2 = false ->
    d1 +++ String c1 r1 = d2 +++ String c2 r2 ->
    d1 = d2 /\ c1 = c2 /\ r1 = r2.
Proof.
  induction d1 as [|x d1 IH]; intros [|y d2] c1 c2 r1 r2 H1 H2 Hc1 Hc2;
    cbn [append all_digits] in *.
  - now intros [= -> ->].
  - intros [= -> _]. apply andb_prop in H2 as [H2 _]. congruence.
  - intros [= -> _]. apply andb_prop in H1 as [H1 _]. congruence.
  - intros [= -> H]. apply andb_prop in H1 as [_ H1].
    apply andb_prop in H2 as [_ H2].
    destruct (IH d2 c1 c2 r1 r2 H1 H2 Hc1 Hc2 H) as (-> & -> & ->). auto.
Qed.

Lemma to_uint_not_nil (n : nat) : Nat.to_uint n <> Decimal.Nil.
Proof.
  intros H. pose proof (DecimalNat.Unsigned.of_to n) as E.
  rewrite H in E. cbn in E. subst n. discriminate H.
Qed.

Lemma string_of_uint_digits (d : Decimal.uint) :
  all_digits (NilEmpty.string_of_uint d) = true.
Proof. induction d; simpl; auto. Qed.

Lemma str_of_nat_nilempty (n : nat) :
  str_of_nat n = NilEmpty.string_of_uint (Nat.to_uint n).
Proof.
  unfold str_of_nat, NilZero.string_of_uint.
  pose proof (to_uint_not_nil n). now destruct (Nat.to_uint n).
Qed.

Lemma str_of_nat_digits (n : nat) : all_digits (str_of_nat n) = true.
Proof. rewrite str_of_nat_nilempty. apply string_of_uint_digits. Qed.

Lemma str_of_nat_inj (n m : nat) : str_of_nat n = str_of_nat m -> n = m.
Proof.
  rewrite !str_of_nat_nilempty. intros H.
  apply (f_equal NilEmpty.uint_of_string) in H.
  rewrite !NilEmpty.usu in H. injection H as H.
  now apply DecimalNat.Unsigned.to_uint_inj.
Qed.

Variables script_name timestamp : string.

(** X11.  The names of the saved files tell the passes apart: two names
    built for code or output files are equal only for the same feedback
    round, the same code iteration and the same kind of file. *)
Theorem artifact_name_injective (fr ci fr' ci' : nat) (ext ext' : string) :
  (ext = ".py" \/ ext = ".txt") ->
  (ext' = ".py" \/ ext' = ".txt") ->
  artifact_name script_name timestamp fr ci ext
  = artifact_name script_name timestamp fr' ci' ext' ->
  fr = fr' /\ ci = ci' /\ ext = ext'.
Proof.
  intros He He' H. unfold artifact_name in H.
  do 4 apply append_inv_head in H.
  change ("_iter" +++ ?x) with (String "_" ("iter" +++ x)) in H.
  apply digits_split in H as (Hfr & _ & H);
    try apply str_of_nat_digits; try reflexivity.
  apply append_inv_head in H.
  assert (Hdot : exists e e', ext = String "." e /\ ext' = String "." e')
    by (destruct He as [->| ->], He' as [->| ->]; eauto).
  destruct Hdot as (e & e' & -> & ->).
  apply digits_split in H as (Hci & _ & ->);
    try apply str_of_nat_digits; try reflexivity.
  repeat split; now apply str_of_nat_inj.
Qed.

(** X12.  No saved file takes the name of the log file of the run. *)
Theorem artifact_name_not_log (fr ci : nat) (ext : string) :
  artifact_name script_name timestamp fr ci ext
  <> log_filename script_name timestamp.
Proof.
  unfold artifact_name, log_filename. intros H.
  do 3 apply append_inv_head in H. discriminate H.
Qed.

End ArtifactNames.

Lemma artifact_name_injective_witness :
  1 = 1 /\ 2 = 2 /\ ".py" = ".py".
Proof.
  apply (artifact_name_injective "v42-rel1" "20250326T010203Z" 1 2 1 2
           ".py" ".py"); [now left|now left|reflexivity].
Defined.

Section ControllerMore.

Import PyStr Controller.

Variable cfg : Config.
Variables script_name timestamp : string.
Variable abspath : string -> string.
Variable complete : nat -> Transcript -> string.
Variable subprocess_run : nat -> string -> run_outcome.
Variable input : nat -> string.

Local Abbreviation to_judgment' :=
  (iteration_to_judgment cfg script_name timestamp abspath complete
     subprocess_run).
Local Abbreviation iteration' :=
  (iteration cfg script_name timestamp abspath complete subprocess_run input).
Local Abbreviation while_loop' :=
  (while_loop cfg script_name timestamp abspath complete subprocess_run input).
Local Abbreviation main' :=
  (main cfg script_name timestamp abspath complete subprocess_run input).
Local Abbreviation artifact_name' := (artifact_name script_name timestamp).

Ltac run_effects :=
  cbv beta iota zeta delta
    [bind ret log_print write_file read_input openai_chat_completion
     run_code save_code_permanently save_output_permanently
     request_user_feedback handle_user_feedback take_feedback
     iteration_summary stash_revised set_fails_since_feedback
     set_project_complete set_conversation_history
     negb fst snd log_lines files n_completions n_runs n_inputs
     conversation_history feedback_round code_iter project_complete
     last_run_output current_code total_passes total_fails
     pending_fail_code fails_since_feedback].

Ltac break_if :=
  match goal with
  | |- context [if (if ?c then _ else _) then _ else _] => destruct c eqn:?
  | |- context [if ?c then _ else _] => destruct c eqn:?
  | |- context [match ?c with Some _ => _ | None => _ end] => destruct c eqn:?
  end.

(** The whole loop body, laid open on a given state and world.  The
    statement around the pass is set aside while the pass is unfolded,
    so that it is unfolded once. *)
Ltac open_iteration :=
  match goal with
  | |- context [iteration ?a ?b ?c ?d ?e ?f ?g ?st ?w] =>
      pattern (iteration a b c d e f g st w)
  end;
  match goal with
  | |- ?P ?x => let Q := fresh "Q" in
                set (Q := P);
                unfold iteration, iteration_to_judgment, generation_step,
                  run_step, judgment_step, verdict_step;
                run_effects; repeat (break_if; run_effects);
                subst Q; run_effects
  end.

Lemma prune_history_in_feedback (T : Transcript) (n : Z) (m : Message) :
  Pruner.is_feedback m = true -> In m T -> In m (Pruner.prune_history T n).
Proof.
  intros Hm Hin. destruct T as [|a [|b rest]];
    try (rewrite prune_history_short; simpl; auto; fail).
  rewrite prune_history_long.
  destruct Hin as [<-|[<-|Hin]]; [now left|right; now left|].
  right; right. apply (proj1 (in_rev _ _)).
  apply scan_keeps_feedback; [exact Hm|].
  apply (proj1 (in_rev _ _)). exact Hin.
Qed.

(** X13.  Whatever the operator types, the message that
    [handle_user_feedback] appends is one the pruner treats as feedback:
    it is still in the transcript after pruning with any budget. *)
Theorem handle_user_feedback_survives
    (user_feedback : string) (history : Transcript) (round : nat)
    (w : World) (n : Z) :
  exists m,
    fst (fst (fst (handle_user_feedback user_feedback history round w)))
    = history ++ [m]
    /\ Pruner.is_feedback m = true
    /\ In m (Pruner.prune_history (history ++ [m]) n).
Proof.
  eexists. split; [reflexivity|].
  assert (Hm : Pruner.is_feedback
                 (mkMessage USER_ROLE
                    ("User Feedback:" +++ nl +++ user_feedback +++ nl
                     +++ "Please revise or improve the code accordingly, returning only the code in triple backticks, no pass/fail statements."))
               = true).
  { unfold Pruner.is_feedback. cbn [role content].
    change (USER_ROLE =? "user")%string with true. cbn [andb].
    apply (contains_prefix Pruner.FEEDBACK_TAG). }
  split; [exact Hm|].
  apply prune_history_in_feedback; [exact Hm|].
  apply in_or_app. right. now left.
Qed.


(** X15.  A pass that reuses pending code asks the completion backend
    once (for the judgment); a pass that generates code asks twice.  A
    pass starts at most one child process and prompts the operator at
    most once. *)
Theorem iteration_calls (st : LoopState) (w : World) :
  n_completions (snd (iteration' st w))
  = n_completions w
    + match pending_fail_code st with Some _ => 1 | None => 2 end
  /\ n_runs w <= n_runs (snd (iteration' st w)) <= n_runs w + 1
  /\ n_inputs w <= n_inputs (snd (iteration' st w)) <= n_inputs w + 1.
Proof.
  destruct st, w. open_iteration; lia.
Qed.

Ltac leb_facts :=
  repeat match goal with
         | H : (_ <=? _) = true |- _ => apply Nat.leb_le in H
         | H : (_ <=? _) = false |- _ => apply Nat.leb_gt in H
         end.

(** X16.  The count of FAILs since the last prompt stays below the
    threshold from one pass to the next: reaching it prompts the
    operator and puts the count back to 0. *)
Theorem iteration_fails_below_threshold (st : LoopState) (w : World) :
  fails_since_feedback st < MAX_FAIL_WO_FDBK cfg ->
  fails_since_feedback (fst (iteration' st w)) < MAX_FAIL_WO_FDBK cfg.
Proof.
  destruct st, w. cbn [fails_since_feedback]. intros H.
  open_iteration; leb_facts; lia.
Qed.

(** X17.  Code left pending by a pass is never blank: it is the trimmed,
    non-empty block extracted from an answer of the completion backend,
    so the pass that reuses it always has code to run. *)
Theorem iteration_pending_not_blank (st : LoopState) (w : World)
    (code : string) :
  pending_fail_code (fst (iteration' st w)) = Some code ->
  blank code = false
  /\ strip code = code
  /\ exists k messages,
       code = Extractor.extract_code_blocks (complete k messages).
Proof.
  assert (Hgood : forall reply,
            truthy (strip (Extractor.extract_code_blocks reply)) = true ->
            blank (Extractor.extract_code_blocks reply) = false
            /\ strip (Extractor.extract_code_blocks reply)
               = Extractor.extract_code_blocks reply).
  { intros reply H. unfold blank. rewrite H. split; [reflexivity|].
    destruct (extract_code_blocks_trimmed reply). now apply stripped_fixed. }
  destruct st, w. open_iteration; try discriminate;
    intros [= <-];
    match goal with
    | H : truthy (strip (Extractor.extract_code_blocks ?r)) = true |- _ =>
        destruct (Hgood r H) as [Hb Hs]
    end; repeat split; auto; eauto.
Qed.

Lemma same_front_prune (h h' : Transcript) :
  same_front h h' -> same_front h (prune cfg h').
Proof.
  unfold same_front, prune. intros [Hf Hl].
  destruct h' as [|a [|b rest]]; simpl in Hl; try lia.
  rewrite prune_history_long. split; [exact Hf|simpl; lia].
Qed.

Lemma same_front_snoc (h h' : Transcript) (m : Message) :
  same_front h h' -> same_front h (h' ++ [m]).
Proof.
  unfold same_front. intros [Hf Hl].
  destruct h' as [|a [|b rest]]; simpl in Hl; try lia.
  split; [exact Hf|simpl; lia].
Qed.

(** X18.  The system prompt and the project description stay in front:
    a pass leaves the first two messages of a transcript of two or more
    messages where and as they are. *)
Theorem iteration_keeps_pinned (st : LoopState) (w : World) :
  2 <= List.length (conversation_history st) ->
  firstn 2 (conversation_history (fst (iteration' st w)))
  = firstn 2 (conversation_history st)
  /\ 2 <= List.length (conversation_history (fst (iteration' st w))).
Proof.
  destruct st as [h fr ci pc lro cc tp tf pfc fsf], w.
  cbn [conversation_history]. intros Hl.
  assert (H0 : same_front h h) by (split; [reflexivity|exact Hl]).
  change (same_front h
            (conversation_history
               (fst (iteration' (mkLoopState h fr ci pc lro cc tp tf pfc fsf)
                       (mkWorld log_lines0 files0 n_completions0 n_runs0
                          n_inputs0))))).
  open_iteration;
    repeat first [apply same_front_snoc | apply same_front_prune];
    exact H0.
Qed.

Lemma verdict_step_totals (st : LoopState) (r : string) (w : World) :
  total_passes (fst (fst (fst (verdict_step cfg input st r w))))
  = total_passes st
    + match classify cfg r with Pass => 1 | Fail | Incomplete => 0 end
  /\ total_fails (fst (fst (fst (verdict_step cfg input st r w))))
     = total_fails st
       + match classify cfg r with Fail => 1 | Pass | Incomplete => 0 end.
Proof.
  destruct st, w. unfold classify, verdict_step.
  destruct (contains (lower (PASS_STR cfg)) (lower r));
    [|destruct (contains (lower (FAIL_STR cfg)) (lower r))];
    run_effects; repeat (break_if; run_effects); split; lia.
Qed.

Lemma to_judgment_totals (st : LoopState) (w : World) :
  total_passes (fst (fst (fst (to_judgment' st w)))) = total_passes st
  /\ total_fails (fst (fst (fst (to_judgment' st w)))) = total_fails st.
Proof.
  destruct st, w.
  match goal with
  | |- context [to_judgment' ?s ?w0] => pattern (to_judgment' s w0)
  end.
  match goal with
  | |- ?P ?x => set (Q := P)
  end.
  unfold iteration_to_judgment, generation_step, run_step, judgment_step.
  run_effects. repeat (break_if; run_effects). all: subst Q; run_effects.
  all: split; reflexivity.
Qed.

Lemma iteration_totals (st : LoopState) (w : World) :
  total_passes (fst (iteration' st w))
  = total_passes st
    + match classify cfg (snd (fst (fst (to_judgment' st w)))) with
      | Pass => 1
      | Fail | Incomplete => 0
      end
  /\ total_fails (fst (iteration' st w))
     = total_fails st
       + match classify cfg (snd (fst (fst (to_judgment' st w)))) with
         | Fail => 1
         | Pass | Incomplete => 0
         end.
Proof.
  rewrite iteration_unfold.
  destruct (verdict_step_totals (fst (fst (fst (to_judgment' st w))))
              (snd (fst (fst (to_judgment' st w))))
              (snd (to_judgment' st w))) as [Hp Hf].
  destruct (to_judgment_totals st w) as [Hp' Hf'].
  rewrite Hp, Hf, Hp', Hf'. split; reflexivity.
Qed.

(** X19.  The two totals count verdicts: a pass adds one to the PASS
    total exactly on a PASS verdict and one to the FAIL total exactly on
    a FAIL verdict; an INCOMPLETE reply changes neither. *)
Theorem iteration_counts_verdicts (st : LoopState) (w : World) :
  total_passes (fst (iteration' st w))
  = total_passes st
    + match classify cfg (snd (fst (fst (to_judgment' st w)))) with
      | Pass => 1
      | Fail | Incomplete => 0
      end
  /\ total_fails (fst (iteration' st w))
     = total_fails st
       + match classify cfg (snd (fst (fst (to_judgment' st w)))) with
         | Fail => 1
         | Pass | Incomplete => 0
         end.
Proof. apply iteration_totals. Qed.

(** X20.  A pass appends to what has been written and writes at most
    two files, each under the name of a code or output file for the
    current feedback round and the code iteration of the pass. *)
Theorem iteration_writes (st : LoopState) (w : World) :
  exists written,
    files (snd (iteration' st w)) = files w ++ written
    /\ List.length written <= 2
    /\ forall name,
         In name (map fst written) ->
         name = artifact_name' (feedback_round st) (code_iter st + 1) ".py"
         \/ name = artifact_name' (feedback_round st) (code_iter st + 1) ".txt".
Proof.
  destruct st, w. open_iteration;
    try match goal with
        | H : false = true |- _ => discriminate H
        | H : true = false |- _ => discriminate H
        end;
    match goal with
    | |- exists written, ?f = ?f ++ written /\ _ =>
        exists []; split; [symmetry; apply app_nil_r|];
        split; [cbn [List.length]; lia|intros name []]
    | |- exists written, ?f ++ [?a] = ?f ++ written /\ _ =>
        exists [a]; split; [reflexivity|];
        split; [cbn [List.length]; lia|];
        cbn [map fst In]; intros name [<-|[]]; right; reflexivity
    | |- exists written, (?f ++ [?a]) ++ [?b] = ?f ++ written /\ _ =>
        exists [a; b]; split; [rewrite <- app_assoc; reflexivity|];
        split; [cbn [List.length]; lia|];
        cbn [map fst In]; intros name [<-|[<-|[]]];
        [left; reflexivity|right; reflexivity]
    end.
Qed.

Lemma iteration_complete_pass (st : LoopState) (w : World) :
  project_complete st = false ->
  project_complete (fst (iteration' st w)) = true ->
  1 <= total_passes (fst (iteration' st w)).
Proof.
  intros Hst. rewrite iteration_complete, Hst.
  destruct (iteration_totals st w) as [Hp _]. rewrite Hp.
  destruct (classify cfg _); [lia|discriminate|discriminate].
Qed.

Lemma while_loop_exit (fuel : nat) :
  forall st w st' w',
    while_loop' fuel st w = (Some st', w') ->
    project_complete st' = true
    /\ ((project_complete st = true -> 1 <= total_passes st) ->
        1 <= total_passes st').
Proof.
  induction fuel as [|fuel IH]; intros st w st' w' H.
  - cbn [while_loop] in H. destruct (project_complete st) eqn:Hc;
      [|discriminate]. injection H as <- <-. auto.
  - destruct (project_complete st) eqn:Hc.
    + cbn [while_loop] in H. rewrite Hc in H. injection H as <- <-. auto.
    + rewrite (while_loop_step _ _ _ _ _ _ _ fuel st w Hc) in H.
      destruct (IH _ _ _ _ H) as [Hdone Hpass].
      split; [exact Hdone|]. intros _. apply Hpass.
      now apply iteration_complete_pass.
Qed.

(** X21.  When [main] comes to its end the loop flag is set and at
    least one PASS verdict has been counted: the script never finishes
    on FAIL or INCOMPLETE verdicts alone. *)
Theorem main_ends_after_a_pass (fuel : nat) (w : World) (st : LoopState) :
  fst (main' fuel w) = Some st ->
  project_complete st = true /\ 1 <= total_passes st.
Proof.
  unfold main. cbv beta iota zeta delta [bind ret log_print].
  match goal with
  | |- context [while_loop' fuel ?s ?w0] =>
      destruct (while_loop' fuel s w0) as [[st1|] w1] eqn:Hloop
  end; cbn [fst]; [|discriminate].
  intros [= <-]. destruct (while_loop_exit _ _ _ _ _ Hloop) as [Hdone Hpass].
  split; [exact Hdone|]. apply Hpass. discriminate.
Qed.

End ControllerMore.

Lemma iteration_fails_below_threshold_witness :
  Controller.fails_since_feedback
    (fst (Controller.iteration source_config "v42-rel1" "20250326T010203Z"
            Samples.work_dir Samples.failing_complete Samples.hello_run
            Samples.enter_only Samples.pending_state empty_world))
  < MAX_FAIL_WO_FDBK source_config.
Proof.
  apply (iteration_fails_below_threshold source_config "v42-rel1"
           "20250326T010203Z" Samples.work_dir Samples.failing_complete
           Samples.hello_run Samples.enter_only Samples.pending_state
           empty_world).
  vm_compute. lia.
Defined.

Lemma iteration_pending_not_blank_witness :
  PyStr.blank "print(3)" = false
  /\ PyStr.strip "print(3)" = "print(3)"
  /\ exists k messages,
       "print(3)"
       = Extractor.extract_code_blocks (Samples.revising_complete k messages).
Proof.
  apply (iteration_pending_not_blank source_config "v42-rel1"
           "20250326T010203Z" Samples.work_dir Samples.revising_complete
           Samples.hello_run Samples.enter_only Samples.pending_state
           empty_world "print(3)").
  vm_compute. reflexivity.
Defined.

Lemma iteration_keeps_pinned_witness :
  firstn 2
    (Controller.conversation_history
       (fst (Controller.iteration source_config "v42-rel1" "20250326T010203Z"
               Samples.work_dir Samples.hello_complete Samples.hello_run
               Samples.enter_only (Controller.initial_state source_config)
               empty_world)))
  = firstn 2
      (Controller.conversation_history (Controller.initial_state source_config))
  /\ 2 <= List.length
            (Controller.conversation_history
               (fst (Controller.iteration source_config "v42-rel1"
                       "20250326T010203Z" Samples.work_dir
                       Samples.hello_complete Samples.hello_run
                       Samples.enter_only
                       (Controller.initial_state source_config) empty_world))).
Proof.
  apply (iteration_keeps_pinned source_config "v42-rel1" "20250326T010203Z"
           Samples.work_dir Samples.hello_complete Samples.hello_run
           Samples.enter_only (Controller.initial_state source_config)
           empty_world).
  unfold Controller.initial_state.
  cbn [Controller.conversation_history List.length]. lia.
Defined.

Lemma main_ends_after_a_pass_witness :
  exists st,
    fst (Controller.main source_config "v42-rel1" "20250326T010203Z"
           Samples.work_dir Samples.hello_complete Samples.hello_run
           Samples.enter_only 1 empty_world) = Some st
    /\ Controller.project_complete st = true
    /\ 1 <= Controller.total_passes st.
Proof.
  eexists. split; [vm_compute; reflexivity|].
  eapply (main_ends_after_a_pass source_config "v42-rel1" "20250326T010203Z"
            Samples.work_dir Samples.hello_complete Samples.hello_run
            Samples.enter_only 1 empty_world).
  vm_compute. reflexivity.
Defined.

(* ================================================================== *)
(** * Properties of the saved script *)

Section SavedScriptFacts.

Import PyStr SavedScript.

Variable requests_post :
  string -> string -> Transcript -> Result Client.Response.
Variable now : string.
Variable format_value : Client.json -> string.

Local Abbreviation script' := (script requests_post now format_value).
Local Abbreviation post' :=
  (requests_post api_url "your-model-name"
     [mkMessage "user" "Hello, how are you?"]).

(** X22.  The saved script has no handler: it ends with an exception
    exactly when the request raises or, under status 200, the body is
    not JSON or has nothing at [choices][0][message][content]. *)
Theorem script_raises_iff (e : exn) :
  script' = inl e
  <-> post' = inl e
      \/ exists response,
           post' = inr response
           /\ Client.status_code response = 200
           /\ (Client.json_body response = inl e
               \/ exists data,
                    Client.json_body response = inr data
                    /\ Client.content_of data = inl e).
Proof.
  unfold script. destruct post' as [e0|response]; cbn [rbind].
  - split; [intros [= ->]; now left|].
    intros [[= ->]|(r & [=] & _)]. reflexivity.
  - destruct (Nat.eqb_spec (Client.status_code response) 200) as [Hs|Hs].
    + destruct (Client.json_body response) as [e1|data] eqn:Hb; cbn [rbind].
      * split.
        -- intros [= ->]. right. exists response. rewrite Hb. auto.
        -- intros [[=]|(r & [= <-] & _ & [Hr|(d & Hr & _)])];
             rewrite Hb in Hr; congruence.
      * destruct (Client.content_of data) as [e2|c] eqn:Hc; cbn [rbind].
        -- split.
           ++ intros [= ->]. right. exists response. rewrite Hb.
              split; [reflexivity|]. split; [exact Hs|]. right.
              exists data. auto.
           ++ intros [[=]|(r & [= <-] & _ & [Hr|(d & Hr & Hd)])];
                rewrite Hb in Hr; [discriminate|].
              injection Hr as <-. congruence.
        -- split; [discriminate|].
           intros [[=]|(r & [= <-] & _ & [Hr|(d & Hr & Hd)])];
             rewrite Hb in Hr; [discriminate|].
           injection Hr as <-. congruence.
    + split; [discriminate|].
      intros [[=]|(r & [= <-] & Hr & _)]. contradiction.
Qed.

(** X23.  Only status 200 counts as success: under every other status,
    the other 2xx included, the script prints one line that names the
    status and does not read the body. *)
Theorem script_other_status (response : Client.Response) :
  post' = inr response ->
  Client.status_code response <> 200 ->
  script'
  = inr [ "Failed to get response from API. Status code: "
          +++ str_of_nat (Client.status_code response) ].
Proof.
  intros Hp Hs. unfold script. rewrite Hp. cbn [rbind].
  destruct (Nat.eqb_spec (Client.status_code response) 200);
    [contradiction|reflexivity].
Qed.

End SavedScriptFacts.

Example empty_choices_end_the_script :
  SavedScript.script Samples.script_post_empty "2025-03-26 01:02:03"
    Samples.show_value
  = inl (Raised "IndexError" "list index out of range").
Proof. reflexivity. Qed.

Lemma script_other_status_witness :
  SavedScript.script Samples.script_post_busy "2025-03-26 01:02:03"
    Samples.show_value
  = inr [ "Failed to get response from API. Status code: "
          +++ PyStr.str_of_nat 503 ].
Proof.
  apply (script_other_status Samples.script_post_busy "2025-03-26 01:02:03"
           Samples.show_value
           {| Client.status_code := 503;
              Client.reason := "Service Unavailable";
              Client.url := SavedScript.api_url;
              Client.json_body :=
                inl (Raised "JSONDecodeError" "Expecting value") |});
    [reflexivity|discriminate].
Defined.
